(** * Indian Railways live status tracker: progress, ETA and route source

    A shallow embedding of [script.js]: the geodesic helpers ([haversine],
    [polyDistanceKm]), the marker animation step ([animateMarker]), the ETA
    computation ([updateEta]), the live payload mapping ([mapApiToRoute],
    [tryFetchLiveRoute]), the persisted segment cursor
    ([estimateCurrentIndex]) and the live/mock arbitration
    ([getRouteProvider]).

    Conventions of the embedding.
    - A string is the UTF-8 encoding of the script's string, as a string
      literal of this file is read: U+00A0 is the two bytes C2 A0.
    - [localStorage] is a finite map from strings to strings; [parseInt] and
      [String] are the conversions the script applies around it.
    - The integer-valued Numbers of the cursor logic are [Z] extended with
      [NaN].  They are the script's binary64 Numbers as long as they stay
      below 2^53 in magnitude, which every index does once it is clamped
      into the station array, and every toggle once it is flipped; a
      statement that depends on the value of a persisted toggle assumes
      that range.
    - Coordinates, distances and timestamps are embedded twice.  Over the
      real numbers, for the properties stated in exact arithmetic.  Over
      binary64 (module [B64], on the primitive floats), where a claim
      speaks of exact results or of every finite input; there the [Math]
      functions are defined at the arguments where the language fixes
      their result, and nowhere else.
    - A function that can [throw] returns a [result]; the [async] provider
      is a function of the outcome of the network call it awaits. *)

From Stdlib Require Import ZArith Lia String Ascii List Bool.
From Stdlib Require Import DecimalString DecimalZ DecimalPos DecimalN.
From Stdlib Require Import Reals Lra.
From Stdlib Require Floats.
From stdpp Require Import base option gmap strings.

Local Open Scope Z_scope.
Local Open Scope string_scope.
Set Warnings "-register-all,-inexact-float".

(* ------------------------------------------------------------------ *)
(** ** Numbers and strings of the cursor logic *)

Module Js.

(** Integer-valued Numbers: what [parseInt], [Math.min], [Math.max], [+]
    and [%] produce in [estimateCurrentIndex].  [Int z] is the Number of
    value [z], for [z] below 2^53 in magnitude; on those the operations
    below are the script's.  From 2^53 on a Number is a rounded integer:
    [Int z] then stands for the Number nearest to [z], which [Math.min],
    [Math.max] and [<] against an array length treat as they treat [z],
    and which [+ 1] and [% 2] do not. *)
Inductive num : Type :=
| NaN : num
| Int : Z -> num.

(** The white space of one byte: TAB, LF, VT, FF, CR, SP. *)
Definition isWhite (c : ascii) : bool :=
  let n := N_of_ascii c in
  (N.eqb n 9 || N.eqb n 10 || N.eqb n 11 || N.eqb n 12 || N.eqb n 13 || N.eqb n 32)%bool.

(** The white space of two bytes: U+00A0 (C2 A0). *)
Definition isWhite2 (a b : ascii) : bool :=
  (N.eqb (N_of_ascii a) 194 && N.eqb (N_of_ascii b) 160)%bool.

(** The white space of three bytes: U+1680 (E1 9A 80), U+2000 to U+200A
    (E2 80 80 to E2 80 8A), U+2028 and U+2029 (E2 80 A8, E2 80 A9), U+202F
    (E2 80 AF), U+205F (E2 81 9F), U+3000 (E3 80 80), U+FEFF (EF BB BF). *)
Definition isWhite3 (a b c : ascii) : bool :=
  let x := N_of_ascii a in
  let y := N_of_ascii b in
  let z := N_of_ascii c in
  ((N.eqb x 225 && N.eqb y 154 && N.eqb z 128) ||
   (N.eqb x 226 && N.eqb y 128 &&
    ((N.leb 128 z && N.leb z 138) || N.eqb z 168 || N.eqb z 169 || N.eqb z 175)) ||
   (N.eqb x 226 && N.eqb y 129 && N.eqb z 159) ||
   (N.eqb x 227 && N.eqb y 128 && N.eqb z 128) ||
   (N.eqb x 239 && N.eqb y 187 && N.eqb z 191))%bool.

(** Leading white space removed, for given tests of the white space of
    one, two and three bytes. *)
Fixpoint trimStartWith (w1 : ascii -> bool) (w2 : ascii -> ascii -> bool)
  (w3 : ascii -> ascii -> ascii -> bool) (s : string) : string :=
  match s with
  | String a r =>
      if w1 a then trimStartWith w1 w2 w3 r else
      match r with
      | String b r2 =>
          if w2 a b then trimStartWith w1 w2 w3 r2 else
          match r2 with
          | String c r3 => if w3 a b c then trimStartWith w1 w2 w3 r3 else s
          | EmptyString => s
          end
      | EmptyString => s
      end
  | EmptyString => s
  end.

(** The white space [parseInt] skips and [trim] removes (WhiteSpace and
    LineTerminator of the language), at the start of a string. *)
Definition trimStart (s : string) : string :=
  trimStartWith isWhite isWhite2 isWhite3 s.

(** The same at the start of the reversed string, where the bytes of a
    character come in reverse. *)
Definition trimStartReversed (s : string) : string :=
  trimStartWith isWhite (fun a b => isWhite2 b a) (fun a b c => isWhite3 c b a) s.

Definition digitVal (c : ascii) : option Z :=
  let n := Z.of_N (N_of_ascii c) in
  if (Z.leb 48 n && Z.leb n 57)%bool then Some (n - 48) else None.

(** Value of the longest prefix of decimal digits; [None] when it is empty. *)
Fixpoint digits (s : string) (acc : option Z) : option Z :=
  match s with
  | String c r =>
      match digitVal c with
      | Some d => digits r (Some (10 * default 0 acc + d))
      | None => acc
      end
  | EmptyString => acc
  end.

(** [parseInt(s, 10)]: the integer that the sign and the leading digits
    denote, [NaN] without a digit.  The script rounds that integer to a
    Number, which changes it from 2^53 on (and makes it infinite from
    about 1.8e308 on). *)
Definition parseInt (s : string) : num :=
  let s1 := trimStart s in
  let '(sign, s2) :=
    match s1 with
    | String "-"%char r => (-1, r)
    | String "+"%char r => (1, r)
    | _ => (1, s1)
    end in
  match digits s2 None with
  | Some m => Int (sign * m)
  | None => NaN
  end.

(** [String(n)]. *)
Definition toString (n : num) : string :=
  match n with
  | NaN => "NaN"
  | Int z => NilZero.string_of_int (Z.to_int z)
  end.

Definition max (a b : num) : num :=
  match a, b with
  | Int x, Int y => Int (Z.max x y)
  | _, _ => NaN
  end.

Definition min (a b : num) : num :=
  match a, b with
  | Int x, Int y => Int (Z.min x y)
  | _, _ => NaN
  end.

(** [a + b], exact: the script's sum for a result below 2^53 in
    magnitude. *)
Definition add (a b : num) : num :=
  match a, b with
  | Int x, Int y => Int (x + y)
  | _, _ => NaN
  end.

(** [a % b]: the sign of the result follows the dividend. *)
Definition rem (a b : num) : num :=
  match a, b with
  | Int x, Int y => if Z.eqb y 0 then NaN else Int (Z.rem x y)
  | _, _ => NaN
  end.

Definition lt (a b : num) : bool :=
  match a, b with
  | Int x, Int y => Z.ltb x y
  | _, _ => false
  end.

Definition strictEq (a b : num) : bool :=
  match a, b with
  | Int x, Int y => Z.eqb x y
  | _, _ => false
  end.

(** [v || d] on the result of [localStorage.getItem]: [null] and the empty
    string are falsy. *)
Definition orString (v : option string) (d : string) : string :=
  match v with
  | Some EmptyString | None => d
  | Some s => s
  end.

End Js.

(* ------------------------------------------------------------------ *)
(** ** Values of a parsed JSON payload, exceptions *)

(** A value as [res.json()] yields it, plus [undefined] for a property
    that is not there.  Numbers are reals (see the conventions above). *)
Inductive JsVal : Type :=
| JUndefined : JsVal
| JNull : JsVal
| JBool : bool -> JsVal
| JNum : R -> JsVal
| JStr : string -> JsVal
| JArr : list JsVal -> JsVal
| JObj : gmap string JsVal -> JsVal.

(** What the script throws, or lets a callee throw. *)
Inductive error : Type :=
| NoApiUrl        (* new Error('No API URL') *)
| NetworkFailure  (* fetch() rejected *)
| ApiError        (* new Error('API error'): the response is not ok *)
| JsonSyntax      (* res.json() rejected *)
| SchemaMismatch  (* new Error('Unexpected API schema') *)
| TypeError       (* property read on null or undefined *)
| EmptyRoute.     (* new Error('Empty route') *)

Inductive result (A : Type) : Type :=
| Ok : A -> result A
| Throw : error -> result A.
Arguments Ok {A} _.
Arguments Throw {A} _.

Definition bind {A B : Type} (m : result A) (f : A -> result B) : result B :=
  match m with
  | Ok a => f a
  | Throw e => Throw e
  end.

Notation "'let!' x ':=' m 'in' k" := (bind m (fun x => k))
  (at level 10, x name, m at level 100, k at level 200).

(** [arr.map(f)] where [f] may throw: elements are visited in order and the
    first exception ends the traversal. *)
Fixpoint mapM {A B : Type} (f : A -> result B) (l : list A) : result (list B) :=
  match l with
  | [] => Ok []
  | a :: r => let! b := f a in let! bs := mapM f r in Ok (b :: bs)
  end.

(** ToBoolean. *)
Definition truthy (v : JsVal) : bool :=
  match v with
  | JUndefined | JNull => false
  | JBool b => b
  | JNum x => if Req_dec_T x 0 then false else true
  | JStr s => negb (String.eqb s "")
  | JArr _ | JObj _ => true
  end.

(** [a || b]. *)
Definition orElse (a b : JsVal) : JsVal := if truthy a then a else b.

(** [v.k] for the property names the script reads from a payload
    ([trainNo], [trainName], [delayMinutes], [stations], [code], [name],
    [lat], [lng], [scheduled], [actual]): an own property of an object,
    [undefined] on any other value that is not nullish (no prototype of a
    JSON value has a member of one of these names), a TypeError on [null]
    and [undefined]. *)
Definition getProp (v : JsVal) (k : string) : result JsVal :=
  match v with
  | JUndefined | JNull => Throw TypeError
  | JObj props => Ok (default JUndefined (props !! k))
  | _ => Ok JUndefined
  end.

Definition isArray (v : JsVal) : bool :=
  match v with JArr _ => true | _ => false end.

(* ------------------------------------------------------------------ *)
(** ** Data model *)

(** A station object [{code, name, lat, lng, sch, act}].  [C] is the type
    of the coordinates: [JsVal] for a station mapped from a payload (the
    script passes [lat] and [lng] through unread), [R] where distances are
    computed from them. *)
Record Station (C : Type) : Type := mkStation {
  code : JsVal;
  name : JsVal;
  lat : C;
  lng : C;
  sch : JsVal;
  act : JsVal
}.
Arguments mkStation {C} _ _ _ _ _ _.
Arguments code {C} _.
Arguments name {C} _.
Arguments lat {C} _.
Arguments lng {C} _.
Arguments sch {C} _.
Arguments act {C} _.

(** A route object [{trainNo, trainName, delayMinutes, stations}]. *)
Record Route : Type := mkRoute {
  trainNo : JsVal;
  trainName : JsVal;
  delayMinutes : JsVal;
  stations : list (Station JsVal)
}.

(** A point [[lat, lng]]. *)
Definition LatLng : Type := (R * R)%type.

(* ------------------------------------------------------------------ *)
(** ** String helpers of the host *)

Definition revString (s : string) : string :=
  string_of_list_ascii (rev (list_ascii_of_string s)).

(** [s.trim()]: the white space of the language removed at both ends. *)
Definition trim (s : string) : string :=
  revString (Js.trimStartReversed (revString (Js.trimStart s))).

(** [s.replace(pat, rep)] with a string pattern: the first occurrence only.
    The replacement the script passes is an [encodeURIComponent] result, so
    it holds no [$] pattern. *)
Fixpoint replaceFirst (pat rep s : string) : string :=
  if String.prefix pat s
  then rep +:+ String.substring (String.length pat) (String.length s - String.length pat) s
  else match s with
       | String c r => String c (replaceFirst pat rep r)
       | EmptyString => EmptyString
       end.

Definition isUnreserved (c : ascii) : bool :=
  let n := N_of_ascii c in
  ((N.leb 65 n && N.leb n 90) || (N.leb 97 n && N.leb n 122) ||
   (N.leb 48 n && N.leb n 57) ||
   existsb (N.eqb n) [45; 95; 46; 33; 126; 42; 39; 40; 41]%N)%bool.

Definition hexDigit (n : N) : ascii :=
  if N.ltb n 10 then ascii_of_N (48 + n) else ascii_of_N (55 + n).

(** [encodeURIComponent(s)], [s] read as its UTF-8 bytes. *)
Fixpoint encodeURIComponent (s : string) : string :=
  match s with
  | String c r =>
      let n := N_of_ascii c in
      (if isUnreserved c then String c EmptyString
       else String "%"%char (String (hexDigit (n / 16)) (String (hexDigit (n mod 16)) EmptyString)))
      +:+ encodeURIComponent r
  | EmptyString => EmptyString
  end.

Definition nonEmpty (s : string) : bool := negb (String.eqb s "").

(* ------------------------------------------------------------------ *)
(** ** GeoMath in exact arithmetic: [haversine], [polyDistanceKm] *)

Local Open Scope R_scope.

Definition toRad (d : R) : R := d * PI / 180.

(** Haversine distance (km). *)
Definition haversine (a b : LatLng) : R :=
  let R0 := 6371 in
  let dLat := toRad (fst b - fst a) in
  let dLon := toRad (snd b - snd a) in
  let lat1 := toRad (fst a) in
  let lat2 := toRad (fst b) in
  let h := sin (dLat / 2) ^ 2 + cos lat1 * cos lat2 * sin (dLon / 2) ^ 2 in
  2 * R0 * asin (sqrt h).

(** [points[i]] for an index inside the array. *)
Definition at_ (points : list LatLng) (i : nat) : LatLng :=
  nth i points (0, 0).

(** [for (let i = 1; i < points.length; i++) sum += haversine(points[i-1], points[i])]. *)
Definition polyDistanceKm (points : list LatLng) : R :=
  fold_left
    (fun sum i => sum + haversine (at_ points (i - 1)) (at_ points i))
    (seq 1 (length points - 1))
    0.

(** [arr.slice(start)] for an integer [start]: a negative [start] counts
    from the end, and the result is empty past the end. *)
Definition slice {A : Type} (arr : list A) (start : Z) : list A :=
  let len := Z.of_nat (length arr) in
  let k := if Z.ltb start 0 then Z.max (len + start) 0 else Z.min start len in
  skipn (Z.to_nat k) arr.

(* ------------------------------------------------------------------ *)
(** ** PositionAnimator in exact arithmetic: [animateMarker] *)

(** The variables [step] closes over: the arguments of [animateMarker] and
    [animStartTs], set from [performance.now()] when the animation starts. *)
Record Animation : Type := mkAnimation {
  animFrom : LatLng;
  animTo : LatLng;
  animStartTs : R;
  animDurationOf : R
}.

(** The module-level default [animDuration]. *)
Definition animDuration : R := 4000.

Definition animateMarker (from to : LatLng) (duration : R) (performance_now : R)
  : Animation :=
  mkAnimation from to performance_now duration.

(** One call of [step(ts)]: the position given to [trainMarker.setLatLng],
    and whether another frame is requested ([p < 1]). *)
Definition step (a : Animation) (ts : R) : LatLng * bool :=
  let p := Rmin ((ts - animStartTs a) / animDurationOf a) 1 in
  let lat := fst (animFrom a) + (fst (animTo a) - fst (animFrom a)) * p in
  let lng := snd (animFrom a) + (snd (animTo a) - snd (animFrom a)) * p in
  ((lat, lng), if Rlt_dec p 1 then true else false).

(* ------------------------------------------------------------------ *)
(** ** EtaCalculator in exact arithmetic: [updateEta] *)

Record Eta : Type := mkEta {
  remainingKm : R;
  etaMs : R
}.

(** [updateEta(stations, currentIdx)] up to its writes to the page;
    [date_now] is the value of [Date.now()]. *)
Definition updateEta (stations : list (Station R)) (currentIdx : Z) (date_now : R)
  : Eta :=
  let points := map (fun s => (lat s, lng s)) stations in
  let remainingPoints := slice points currentIdx in
  let remainingKm := polyDistanceKm remainingPoints in
  let avgKmph := 70 in
  let hours := remainingKm / avgKmph in
  let etaMs := date_now + hours * 3600 * 1000 in
  mkEta remainingKm etaMs.

Local Close Scope R_scope.

(* ------------------------------------------------------------------ *)
(** ** GeoMath and PositionAnimator on binary64 *)

Module B64.

Import Floats.
Local Open Scope float_scope.

(** A Number is a primitive float: the binary64 values, with one [NaN].
    [+], [-], [*], [/] and the comparisons are those of IEEE 754, as in
    the script. *)
Definition LatLng : Type := (float * float)%type.

(** [Math.PI]. *)
Definition Math_PI : float := 0x1.921fb54442d18p+1.

(** [Math.min(x, y)]: [NaN] when an argument is [NaN]; [-0] is below [+0]. *)
Definition Math_min (x y : float) : float :=
  if (is_nan x || is_nan y)%bool then nan
  else if x <? y then x
  else if y <? x then y
  else if get_sign x then x else y.

(** [Math.max(x, y)]: [NaN] when an argument is [NaN]; [+0] is above [-0]. *)
Definition Math_max (x y : float) : float :=
  if (is_nan x || is_nan y)%bool then nan
  else if x <? y then y
  else if y <? x then x
  else if get_sign x then y else x.

(** [Math.sin], [Math.cos], [Math.asin], [Math.sqrt] and [x ** 2] are
    approximated as the implementation sees fit, except at the arguments
    where the language fixes their result.  They are defined at those
    arguments and are [None] elsewhere. *)
Definition Math_sin (x : float) : option float :=
  if (is_nan x || is_infinity x)%bool then Some nan
  else if is_zero x then Some x
  else None.

Definition Math_cos (x : float) : option float :=
  if (is_nan x || is_infinity x)%bool then Some nan
  else if is_zero x then Some 1
  else None.

Definition Math_asin (x : float) : option float :=
  if is_nan x then Some nan
  else if ((1 <? x) || (x <? -1))%bool then Some nan
  else if is_zero x then Some x
  else None.

Definition Math_sqrt (x : float) : option float :=
  if is_nan x then Some nan
  else if x <? 0 then Some nan
  else if is_zero x then Some x
  else if x =? infinity then Some infinity
  else None.

(** [x ** 2]. *)
Definition square (x : float) : option float :=
  if is_nan x then Some nan
  else if is_infinity x then Some infinity
  else if is_zero x then Some 0
  else None.

Definition toRad (d : float) : float := d * Math_PI / 180.

(** Haversine distance (km), where the language fixes it. *)
Definition haversine (a b : LatLng) : option float :=
  let R0 := 6371 in
  let dLat := toRad (fst b - fst a) in
  let dLon := toRad (snd b - snd a) in
  let lat1 := toRad (fst a) in
  let lat2 := toRad (fst b) in
  sLat ← Math_sin (dLat / 2);
  sLat2 ← square sLat;
  c1 ← Math_cos lat1;
  c2 ← Math_cos lat2;
  sLon ← Math_sin (dLon / 2);
  sLon2 ← square sLon;
  let h := sLat2 + c1 * c2 * sLon2 in
  r ← Math_sqrt h;
  s ← Math_asin r;
  Some (2 * R0 * s).

Definition at_ (points : list LatLng) (i : nat) : LatLng :=
  nth i points (0, 0).

Definition polyDistanceKm (points : list LatLng) : option float :=
  fold_left
    (fun sum i =>
       acc ← sum;
       h ← haversine (at_ points (i - 1)) (at_ points i);
       Some (acc + h))
    (seq 1 (length points - 1))
    (Some 0).

Record Animation : Type := mkAnimation {
  animFrom : LatLng;
  animTo : LatLng;
  animStartTs : float;
  animDurationOf : float
}.

Definition animateMarker (from to : LatLng) (duration : float)
  (performance_now : float) : Animation :=
  mkAnimation from to performance_now duration.

(** One call of [step(ts)]: the position given to [trainMarker.setLatLng],
    and whether another frame is requested ([p < 1]). *)
Definition step (a : Animation) (ts : float) : LatLng * bool :=
  let p := Math_min ((ts - animStartTs a) / animDurationOf a) 1 in
  let lat := fst (animFrom a) + (fst (animTo a) - fst (animFrom a)) * p in
  let lng := snd (animFrom a) + (snd (animTo a) - snd (animFrom a)) * p in
  ((lat, lng), p <? 1).

(** The progress of the specification: [clamp(x, lo, hi)]. *)
Definition clamp (x lo hi : float) : float := Math_max lo (Math_min x hi).

End B64.

(* ------------------------------------------------------------------ *)
(** ** RouteSource: [mapApiToRoute], [tryFetchLiveRoute], [getRouteProvider] *)

(** The arrow function given to [json.stations.map]. *)
Definition mapStation (s : JsVal) : result (Station JsVal) :=
  let! c := getProp s "code" in
  let! n := getProp s "name" in
  let! la := getProp s "lat" in
  let! lo := getProp s "lng" in
  let! sc := getProp s "scheduled" in
  let! ac := getProp s "actual" in
  Ok (mkStation (orElse c (JStr "")) (orElse n (JStr "")) la lo
                (orElse sc (JStr "")) (orElse ac (JStr ""))).

Definition mapApiToRoute (json : JsVal) : result Route :=
  if negb (truthy json) then Throw SchemaMismatch else
  let! no := getProp json "trainNo" in
  if negb (truthy no) then Throw SchemaMismatch else
  let! sts := getProp json "stations" in
  match sts with
  | JArr items =>
      let! nm := getProp json "trainName" in
      let! dl := getProp json "delayMinutes" in
      let! mapped := mapM mapStation items in
      Ok (mkRoute no (orElse nm (JStr "Live Train")) (orElse dl (JNum 0)) mapped)
  | _ => Throw SchemaMismatch
  end.

(** What [fetch] resolves to: the [ok] flag and the outcome of [res.json()]. *)
Record Response : Type := mkResponse {
  ok : bool;
  json : result JsVal
}.

(** The network: the outcome of [fetch(url, {headers})]. *)
Definition Net : Type := string -> gmap string string -> result Response.

Definition tryFetchLiveRoute (net : Net) (trainNo apiUrl apiKey : string)
  : result Route :=
  if negb (nonEmpty apiUrl) then Throw NoApiUrl else
  let url := replaceFirst "{trainNo}" (encodeURIComponent trainNo) apiUrl in
  let headers : gmap string string :=
    if nonEmpty apiKey then {[ "Authorization" := apiKey ]} else ∅ in
  let! res := net url headers in
  if negb (ok res) then Throw ApiError else
  let! j := json res in
  mapApiToRoute j.

Definition demoStation (c n : string) (la lo : R) (sc ac : string) : Station JsVal :=
  mkStation (JStr c) (JStr n) (JNum la) (JNum lo) (JStr sc) (JStr ac).

(** The demo route [MOCK_ROUTES["INR12627"]]. *)
Definition demoRoute : Route :=
  mkRoute (JStr "INR12627") (JStr "BharatCourier Express (Demo)") (JNum 0)
    [ demoStation "CSMT" "Mumbai CSMT" 19.0760 72.8777 "08:00" "08:00";
      demoStation "PUNE" "Pune Jn" 18.5204 73.8567 "12:30" "12:30";
      demoStation "HYB" "Hyderabad Deccan" 17.3850 78.4867 "20:30" "20:35";
      demoStation "SBC" "Bengaluru City" 12.9716 77.5946 "05:30" "05:45";
      demoStation "MAS" "Chennai Central" 13.0827 80.2707 "11:30" "11:35" ].

(** The own properties of [MOCK_ROUTES]. *)
Definition MOCK_ROUTES : gmap string Route :=
  {[ "INR12627" := demoRoute ]}.

(** [MOCK_ROUTES] is an object literal: a name it does not own is looked up
    in [Object.prototype], whose members have these names. *)
Definition objectPrototypeNames : list string :=
  [ "constructor"; "hasOwnProperty"; "isPrototypeOf"; "propertyIsEnumerable";
    "toLocaleString"; "toString"; "valueOf"; "__defineGetter__";
    "__defineSetter__"; "__lookupGetter__"; "__lookupSetter__"; "__proto__" ].

(** What a provider resolves to: a route object, or the member of
    [Object.prototype] that [MOCK_ROUTES[trainNo]] evaluates to. *)
Inductive Provided : Type :=
| ARoute : Route -> Provided
| APrototypeMember : string -> Provided
| AUndefined : Provided.

(** [MOCK_ROUTES[k]]. *)
Definition mockLookup (k : string) : Provided :=
  match MOCK_ROUTES !! k with
  | Some r => ARoute r
  | None =>
      if existsb (String.eqb k) objectPrototypeNames
      then APrototypeMember k
      else AUndefined
  end.

(** [MOCK_ROUTES[trainNo] || MOCK_ROUTES['INR12627']]; a route object and
    a member of [Object.prototype] (a function or an object) are truthy. *)
Definition mockOrDefault (trainNo : string) : Provided :=
  match mockLookup trainNo with
  | AUndefined => mockLookup "INR12627"
  | v => v
  end.

(** [toast(msg)]: the messages shown so far, oldest first. *)
Definition toast (msg : string) (shown : list string) : list string :=
  shown ++ [msg].

(** The controls [getRouteProvider] reads. *)
Record Controls : Type := mkControls {
  useLiveApi_checked : bool;
  apiUrl_value : string;
  apiKey_value : string
}.

(** An [async] provider: given the network and the toasts shown so far, it
    resolves ([Ok]) or rejects ([Throw]), and leaves the toasts shown. *)
Definition Provider : Type :=
  Net -> list string -> result Provided * list string.

(** [try { body } catch (e) { handler }] over the toasts. *)
Definition tryCatch {A : Type} (body : result A) (shown : list string)
  (handler : error -> list string -> result A * list string)
  : result A * list string :=
  match body with
  | Ok a => (Ok a, shown)
  | Throw e => handler e shown
  end.

(** [!r || !r.stations || !r.stations.length] on a mapped route: the route
    object and its [stations] array are truthy, the length decides. *)
Definition isEmptyRoute (r : Route) : bool :=
  Nat.eqb (length (stations r)) 0.

Definition getRouteProvider (ui : Controls) (trainNo : string) : Provider :=
  let useLive := useLiveApi_checked ui in
  let apiUrl := trim (apiUrl_value ui) in
  let apiKey := trim (apiKey_value ui) in
  if (useLive && nonEmpty apiUrl)%bool then
    fun net shown =>
      tryCatch
        (let! r := tryFetchLiveRoute net trainNo apiUrl apiKey in
         if isEmptyRoute r then Throw EmptyRoute else Ok (ARoute r))
        shown
        (fun _ shown' =>
           (Ok (mockOrDefault trainNo),
            toast "Live API failed, using demo route." shown'))
  else
    fun _ shown => (Ok (mockOrDefault trainNo), shown).

(* ------------------------------------------------------------------ *)
(** ** ProgressEstimator: [estimateCurrentIndex] *)

(** [currentTrain || 'demo'], [currentTrain] being [null] or a string. *)
Definition trainOrDemo (currentTrain : option string) : string :=
  Js.orString currentTrain "demo".

Definition idxKey (currentTrain : option string) : string :=
  "rail_idx:" +:+ trainOrDemo currentTrain.

Definition toggleKey (currentTrain : option string) : string :=
  "rail_toggle:" +:+ trainOrDemo currentTrain.

(** [estimateCurrentIndex(stations)]: the index returned and [localStorage]
    as the call leaves it.  [currentTrain] is the global the keys are built
    from. *)
Definition estimateCurrentIndex {C : Type} (currentTrain : option string)
  (stations : list (Station C)) (localStorage : gmap string string)
  : Js.num * gmap string string :=
  let len := Z.of_nat (length stations) in
  let key := idxKey currentTrain in
  let idx := Js.parseInt (Js.orString (localStorage !! key) "0") in
  let idx := Js.min (Js.max idx (Js.Int 0)) (Js.Int (len - 2)) in
  let tkey := toggleKey currentTrain in
  let t := Js.rem (Js.add (Js.parseInt (Js.orString (localStorage !! tkey) "0"))
                          (Js.Int 1)) (Js.Int 2) in
  let localStorage := <[ tkey := Js.toString t ]> localStorage in
  let idx := if (Js.strictEq t (Js.Int 0) && Js.lt idx (Js.Int (len - 2)))%bool
             then Js.add idx (Js.Int 1) else idx in
  let localStorage := <[ key := Js.toString idx ]> localStorage in
  (idx, localStorage).

(** [k] successive polls of one route: [localStorage] after them. *)
Fixpoint storageAfter {C : Type} (k : nat) (currentTrain : option string)
  (stations : list (Station C)) (localStorage : gmap string string)
  : gmap string string :=
  match k with
  | O => localStorage
  | S k' =>
      snd (estimateCurrentIndex currentTrain stations
             (storageAfter k' currentTrain stations localStorage))
  end.

(** The index returned by poll number [k + 1]. *)
Definition returned {C : Type} (k : nat) (currentTrain : option string)
  (stations : list (Station C)) (localStorage : gmap string string) : Js.num :=
  fst (estimateCurrentIndex currentTrain stations
         (storageAfter k currentTrain stations localStorage)).

(** The persisted [waypointIndex] and toggle, as the next poll reads them. *)
Definition storedIndex (currentTrain : option string)
  (localStorage : gmap string string) : Js.num :=
  Js.parseInt (Js.orString (localStorage !! idxKey currentTrain) "0").

Definition storedToggle (currentTrain : option string)
  (localStorage : gmap string string) : Js.num :=
  Js.parseInt (Js.orString (localStorage !! toggleKey currentTrain) "0").

(* ------------------------------------------------------------------ *)
(** ** The formulations of the specification, for comparison *)

Module Spec.

Local Open Scope R_scope.

(** [pathDistanceKm(points)]: the sum of [distanceKm] over the consecutive
    pairs, 0 for a sequence of length at most 1. *)
Fixpoint pathDistanceKm (points : list LatLng) : R :=
  match points with
  | a :: r =>
      match r with
      | b :: _ => haversine a b + pathDistanceKm r
      | [] => 0
      end
  | [] => 0
  end.

(** [waypoints[currentIndex:]]. *)
Definition suffix {A : Type} (l : list A) (i : nat) : list A := skipn i l.

(** [EtaCalculator.compute(waypoints, currentIndex, nowTimestamp, cruiseSpeedKmph)]. *)
Definition compute (waypoints : list LatLng) (currentIndex : nat)
  (nowTimestamp cruiseSpeedKmph : R) : R * R :=
  let remainingKm := pathDistanceKm (suffix waypoints currentIndex) in
  let travelHours := remainingKm / cruiseSpeedKmph in
  (remainingKm, nowTimestamp + travelHours * 3600 * 1000).

Definition clamp (x lo hi : R) : R := Rmax lo (Rmin x hi).

(** [positionAt(now)] with [p = clamp((now - start)/duration, 0, 1)]. *)
Definition positionAt (from to : LatLng) (start duration now : R) : LatLng :=
  let p := clamp ((now - start) / duration) 0 1 in
  (fst from + (fst to - fst from) * p, snd from + (snd to - snd from) * p).

End Spec.

(* ------------------------------------------------------------------ *)
(** ** Auxiliary definitions for the proofs *)

(** The value of the decimal digits [d] read after a prefix of value [a]. *)
Fixpoint uval (d : Decimal.uint) (a : Z) : Z :=
  match d with
  | Decimal.Nil => a
  | Decimal.D0 l => uval l (10 * a + 0)
  | Decimal.D1 l => uval l (10 * a + 1)
  | Decimal.D2 l => uval l (10 * a + 2)
  | Decimal.D3 l => uval l (10 * a + 3)
  | Decimal.D4 l => uval l (10 * a + 4)
  | Decimal.D5 l => uval l (10 * a + 5)
  | Decimal.D6 l => uval l (10 * a + 6)
  | Decimal.D7 l => uval l (10 * a + 7)
  | Decimal.D8 l => uval l (10 * a + 8)
  | Decimal.D9 l => uval l (10 * a + 9)
  end.

(** Does the string hold an ASCII lower-case letter? *)
Fixpoint hasLower (s : string) : bool :=
  match s with
  | String c r =>
      let n := N_of_ascii c in
      ((N.leb 97 n && N.leb n 122) || hasLower r)%bool
  | EmptyString => false
  end.

(** [v.k], [undefined] where the read throws. *)
Definition prop (v : JsVal) (k : string) : JsVal :=
  match getProp v k with
  | Ok x => x
  | Throw _ => JUndefined
  end.

(** [null] or [undefined]: the values a property read throws on. *)
Definition nullish (v : JsVal) : bool :=
  match v with
  | JUndefined | JNull => true
  | _ => false
  end.

(** The live branch of [getRouteProvider] is taken. *)
Definition liveConfigured (ui : Controls) : bool :=
  (useLiveApi_checked ui && nonEmpty (trim (apiUrl_value ui)))%bool.

(** The route the live branch returns, if it gets that far. *)
Definition liveRoute (ui : Controls) (trainNo : string) (net : Net) : option Route :=
  if liveConfigured ui then
    match tryFetchLiveRoute net trainNo (trim (apiUrl_value ui)) (trim (apiKey_value ui)) with
    | Ok r => if isEmptyRoute r then None else Some r
    | Throw _ => None
    end
  else None.

(** [f] is the entry of the static dataset for [trainNo]: its own entry,
    or the default one when it has none. *)
Definition isFallback (trainNo : string) (f : Route) : Prop :=
  MOCK_ROUTES !! trainNo = Some f \/
  (MOCK_ROUTES !! trainNo = None /\ MOCK_ROUTES !! "INR12627" = Some f).

(** A payload with an identifier and an empty [stations] array. *)
Definition emptyPayload : JsVal :=
  JObj {[ "trainNo" := JStr "INR12627"; "stations" := JArr [] ]}.

(** A payload with one station, without [name] and schedule strings. *)
Definition onePayload : JsVal :=
  JObj {[ "trainNo" := JStr "INR12627";
          "stations" :=
            JArr [ JObj {[ "code" := JStr "CSMT"; "lat" := JNum 19; "lng" := JNum 72 ]} ] ]}.

(** What [mapApiToRoute] makes of [onePayload]. *)
Definition oneRoute : Route :=
  mkRoute (JStr "INR12627") (JStr "Live Train") (JNum 0)
    [ mkStation (JStr "CSMT") (JStr "") (JNum 19) (JNum 72) (JStr "") (JStr "") ].

(** A network that answers every request with the payload [j]. *)
Definition answering (j : JsVal) : Net :=
  fun _ _ => Ok (mkResponse true (Ok j)).

(** A network on which every request fails. *)
Definition unreachable : Net :=
  fun _ _ => Throw NetworkFailure.

(** Two stations with numeric coordinates. *)
Definition twoStations : list (Station R) :=
  [ mkStation (JStr "CSMT") (JStr "Mumbai CSMT") 19%R 72%R (JStr "08:00") (JStr "08:00");
    mkStation (JStr "PUNE") (JStr "Pune Jn") 18%R 73%R (JStr "12:30") (JStr "12:30") ].

(** The body of the loop of [polyDistanceKm] over the array [l]. *)
Definition loopBody (l : list LatLng) : R -> nat -> R :=
  fun sum i => (sum + haversine (at_ l (i - 1)) (at_ l i))%R.

(** The toggle a poll computes from the persisted one. *)
Definition flipToggle (t : Js.num) : Js.num :=
  Js.rem (Js.add t (Js.Int 1)) (Js.Int 2).

(** The index a poll returns, from the persisted index [n], the flipped
    toggle [t] and the number [len] of stations. *)
Definition advanceFrom (n : Z) (t : Js.num) (len : Z) : Z :=
  let c := Z.min (Z.max n 0) (len - 2) in
  if (Js.strictEq t (Js.Int 0) && Z.ltb c (len - 2))%bool then c + 1 else c.

(* ------------------------------------------------------------------ *)
(** ** Further functions of the script *)

(** [stations[idx]]: [undefined] ([None]) for [NaN] and outside the array. *)
Definition stationAt {C : Type} (stations : list (Station C)) (idx : Js.num)
  : option (Station C) :=
  match idx with
  | Js.Int z => if Z.ltb z 0 then None else stations !! Z.to_nat z
  | Js.NaN => None
  end.

(** The integer an index argument of [slice] stands for ([NaN] reads as 0). *)
Definition toInteger (n : Js.num) : Z :=
  match n with
  | Js.Int z => z
  | Js.NaN => 0
  end.

(** What [renderRoute] settles for a route: the global [currentTrain], the
    segment, the animation started and the ETA. *)
Record Rendered : Type := mkRendered {
  r_currentTrain : option string;
  r_idx : Js.num;
  r_cur : Station R;
  r_nxt : Station R;
  r_animation : Animation;
  r_eta : Eta
}.

(** [renderRoute(route)] for a route whose [trainNo] is a string and whose
    coordinates are numbers, up to the writes to the page and the Leaflet
    calls of [drawRoute] and [setLatLng].  Reading [cur.name] throws when
    [route.stations[idx]] is [undefined].  The second component is
    [localStorage] as the call leaves it. *)
Definition renderRoute (route_trainNo : string) (route_stations : list (Station R))
  (localStorage : gmap string string) (performance_now date_now : R)
  : result Rendered * gmap string string :=
  let currentTrain := Some route_trainNo in
  let '(idx, localStorage) :=
    estimateCurrentIndex currentTrain route_stations localStorage in
  match stationAt route_stations idx with
  | None => (Throw TypeError, localStorage)
  | Some cur =>
      let nxt :=
        match stationAt route_stations (Js.add idx (Js.Int 1)) with
        | Some s => s
        | None => cur
        end in
      let from := (lat cur, lng cur) in
      let to := (lat nxt, lng nxt) in
      let anim := animateMarker from to animDuration performance_now in
      (Ok (mkRendered currentTrain idx cur nxt anim
             (updateEta route_stations (toInteger idx) date_now)),
       localStorage)
  end.



(** The handler of [trackBtn.onclick], up to [setUrlTrain]: a toast, or the
    identifier given to [getRouteProvider].  [toUpperCase] is the method of
    the host, with its Unicode case tables; it is a parameter here. *)
Definition trackBtn_onclick (toUpperCase : string -> string)
  (trainInput_value : string) : string + string :=
  let t := toUpperCase (trim trainInput_value) in
  if negb (nonEmpty t) then inl "Enter a train number" else inr t.

(** The identifier the [load] handler gives to [getRouteProvider];
    [getUrlTrain()] is [null] when the URL has no [train] parameter. *)
Definition onLoad_train (toUpperCase : string -> string)
  (getUrlTrain : option string) : string :=
  toUpperCase (Js.orString getUrlTrain "INR12627").

(* ------------------------------------------------------------------ *)
(** ** Further auxiliary definitions *)

(** A network that answers one request, and fails on any other. *)
Definition answeringOnly (url : string) (headers : gmap string string)
  (resp : Response) : Net :=
  fun u h =>
    if (String.eqb u url && bool_decide (h = headers))%bool
    then Ok resp else Throw NetworkFailure.

(** Does the character occur in the string? *)
Fixpoint occurs (c : ascii) (s : string) : bool :=
  match s with
  | String x r => (Ascii.eqb x c || occurs c r)%bool
  | EmptyString => false
  end.

(** Every character of the string passes the test. *)
Fixpoint allChars (p : ascii -> bool) (s : string) : bool :=
  match s with
  | String x r => (p x && allChars p r)%bool
  | EmptyString => true
  end.

Definition isHexDigit (c : ascii) : bool :=
  let n := N_of_ascii c in
  ((N.leb 48 n && N.leb n 57) || (N.leb 65 n && N.leb n 70))%bool.

(** A percent-encoded string: unreserved characters and [%XX] triples. *)
Fixpoint wellEncoded (s : string) : bool :=
  match s with
  | String "%"%char (String a (String b r)) =>
      (isHexDigit a && isHexDigit b && wellEncoded r)%bool
  | String c r => (isUnreserved c && wellEncoded r)%bool
  | EmptyString => true
  end.

(** Upper case for the letters a to z, every other byte kept: on a string
    of ASCII characters, what [toUpperCase()] returns. *)
Definition upperChar (c : ascii) : ascii :=
  let n := N_of_ascii c in
  if (N.leb 97 n && N.leb n 122)%bool then ascii_of_N (n - 32) else c.

Fixpoint asciiUpper (s : string) : string :=
  match s with
  | String c r => String (upperChar c) (asciiUpper r)
  | EmptyString => EmptyString
  end.

(** The clamp of [estimateCurrentIndex] on integers. *)
Definition clampIndex (n len : Z) : Z := Z.min (Z.max n 0) (len - 2).

(** [null] station in the array. *)
Definition hasNullish (items : list JsVal) : bool := existsb nullish items.

(** A text field as [mapApiToRoute] leaves it: truthy, or the empty string. *)
Definition textOrEmpty (v : JsVal) : Prop := truthy v = true \/ v = JStr "".


(* ------------------------------------------------------------------ *)
(** * Properties *)

(** ** [parseInt] reads back what [String] wrote *)

Lemma uval_of_uint_acc (d : Decimal.uint) (acc : positive) :
  Z.pos (Pos.of_uint_acc d acc) = uval d (Z.pos acc).
Proof.
  revert acc; induction d; intros acc; simpl; try reflexivity;
    rewrite IHd; f_equal; lia.
Qed.

Lemma uval_of_uint (d : Decimal.uint) : Z.of_N (Pos.of_uint d) = uval d 0.
Proof.
  induction d; simpl; try reflexivity; try assumption;
    apply uval_of_uint_acc.
Qed.

Lemma digits_string_of_uint (d : Decimal.uint) (a : Z) :
  Js.digits (NilEmpty.string_of_uint d) (Some a) = Some (uval d a).
Proof.
  revert a; induction d; intros a; simpl; try reflexivity; apply IHd.
Qed.

Lemma digits_NilZero (d : Decimal.uint) :
  Js.digits (NilZero.string_of_uint d) None = Some (uval d 0).
Proof.
  destruct d; simpl; try reflexivity; apply digits_string_of_uint.
Qed.

(** A character of one byte that is not white space ends the trimming. *)
Lemma trimStart_head (a : ascii) (r : string) :
  Js.isWhite a = false -> N.ltb (N_of_ascii a) 128 = true ->
  Js.trimStart (String a r) = String a r.
Proof.
  intros Hw Ha. apply N.ltb_lt in Ha.
  assert (E : forall k, (194 <= k)%N -> N.eqb (N_of_ascii a) k = false)
    by (intros k Hk; apply N.eqb_neq; lia).
  assert (E2 : forall b, Js.isWhite2 a b = false).
  { intros b. unfold Js.isWhite2. rewrite E by lia. reflexivity. }
  assert (E3 : forall b c, Js.isWhite3 a b c = false).
  { intros b c. unfold Js.isWhite3. cbv zeta. rewrite !E by lia. reflexivity. }
  unfold Js.trimStart. cbn [Js.trimStartWith]. rewrite Hw.
  destruct r as [|b [|c r3]]; [reflexivity | rewrite E2; reflexivity |].
  rewrite E2, E3. reflexivity.
Qed.

Lemma NilZero_head (d : Decimal.uint) :
  exists c r, NilZero.string_of_uint d = String c r /\
              c <> "-"%char /\ c <> "+"%char /\ Js.isWhite c = false /\
              N.ltb (N_of_ascii c) 128 = true.
Proof.
  destruct d; simpl; eexists _, _; (split; [reflexivity|]);
    repeat split; discriminate.
Qed.

Lemma trimStart_NilZero (d : Decimal.uint) :
  Js.trimStart (NilZero.string_of_uint d) = NilZero.string_of_uint d.
Proof.
  destruct (NilZero_head d) as (c & r & -> & _ & _ & Hw & Ha).
  apply trimStart_head; assumption.
Qed.

Lemma parseInt_uint (d : Decimal.uint) :
  Js.parseInt (NilZero.string_of_uint d) = Js.Int (uval d 0).
Proof.
  unfold Js.parseInt. rewrite trimStart_NilZero.
  destruct (NilZero_head d) as (c & r & E & Hm & Hp & _ & _).
  pose proof (digits_NilZero d) as D. rewrite E in *.
  destruct (Ascii.ascii_dec c "-"%char) as [->|]; [congruence|].
  destruct (Ascii.ascii_dec c "+"%char) as [->|]; [congruence|].
  assert (X : (let '(sign, s2) :=
                 match String c r with
                 | String "-"%char r0 => (-1, r0)
                 | String "+"%char r0 => (1, r0)
                 | _ => (1, String c r)
                 end in
               match Js.digits s2 None with
               | Some m => Js.Int (sign * m)
               | None => Js.NaN
               end) = match Js.digits (String c r) None with
                      | Some m => Js.Int (1 * m)
                      | None => Js.NaN
                      end).
  { destruct c as [[] [] [] [] [] [] [] []]; try reflexivity; congruence. }
  rewrite X, D. f_equal. lia.
Qed.

Lemma parseInt_toString (n : Js.num) : Js.parseInt (Js.toString n) = n.
Proof.
  destruct n as [|z]; [reflexivity|].
  destruct z as [|p|p]; [reflexivity| |];
    unfold Js.toString, Z.to_int, NilZero.string_of_int.
  - rewrite parseInt_uint, <- uval_of_uint, DecimalPos.Unsigned.of_to.
    reflexivity.
  - unfold Js.parseInt.
    rewrite trimStart_head by reflexivity.
    cbv iota beta.
    rewrite digits_NilZero, <- uval_of_uint, DecimalPos.Unsigned.of_to.
    reflexivity.
Qed.

Lemma toString_nonempty (n : Js.num) : Js.toString n <> "".
Proof.
  destruct n as [|z]; [discriminate|].
  assert (H : forall d, NilZero.string_of_uint d <> "")
    by (intros d; destruct d; discriminate).
  destruct z; simpl; try discriminate; apply H.
Qed.

Lemma orString_toString (n : Js.num) (d : string) :
  Js.orString (Some (Js.toString n)) d = Js.toString n.
Proof.
  pose proof (toString_nonempty n) as H.
  unfold Js.orString. destruct (Js.toString n); congruence.
Qed.

(** ** The persisted cursor *)

Lemma keys_differ (currentTrain : option string) :
  idxKey currentTrain <> toggleKey currentTrain.
Proof. unfold idxKey, toggleKey. simpl. discriminate. Qed.

Lemma flipToggle_cases (t : Js.num) :
  flipToggle t = Js.NaN \/ flipToggle t = Js.Int (-1) \/
  flipToggle t = Js.Int 0 \/ flipToggle t = Js.Int 1.
Proof.
  destruct t as [|z]; [left; reflexivity|]. right.
  unfold flipToggle; simpl.
  pose proof (Z.rem_bound_abs (z + 1) 2 ltac:(lia)) as B.
  assert (Z.rem (z + 1) 2 = -1 \/ Z.rem (z + 1) 2 = 0 \/ Z.rem (z + 1) 2 = 1)
    as [-> | [-> | ->]] by lia; auto.
Qed.

(** After a poll whose flipped toggle is 0, the next one flips it to 1. *)
Lemma flipToggle_after_zero (t : Js.num) :
  flipToggle t = Js.Int 0 -> flipToggle (flipToggle t) = Js.Int 1.
Proof. intros ->. reflexivity. Qed.

Lemma advanceFrom_range (n : Z) (t : Js.num) (len : Z) :
  2 <= len -> 0 <= advanceFrom n t len <= len - 2.
Proof.
  intros H. unfold advanceFrom.
  destruct (Js.strictEq t (Js.Int 0) && _)%bool eqn:E; [|lia].
  apply andb_true_iff in E as [_ E]. apply Z.ltb_lt in E. lia.
Qed.

Lemma advanceFrom_in_range (n : Z) (t : Js.num) (len : Z) :
  0 <= n <= len - 2 ->
  advanceFrom n t len =
    if (Js.strictEq t (Js.Int 0) && Z.ltb n (len - 2))%bool then n + 1 else n.
Proof.
  intros H. unfold advanceFrom.
  replace (Z.min (Z.max n 0) (len - 2)) with n by lia. reflexivity.
Qed.

Section Estimator.

Context {C : Type}.
Variable currentTrain : option string.
Variable stations : list (Station C).

Abbreviation len := (Z.of_nat (length stations)).

Abbreviation poll := (estimateCurrentIndex currentTrain stations).
Abbreviation sIndex := (storedIndex currentTrain).
Abbreviation sToggle := (storedToggle currentTrain).

(** One poll, from a persisted index that reads as the integer [n]. *)
Lemma poll_from (ls : gmap string string) (n : Z) :
  sIndex ls = Js.Int n ->
  let t := flipToggle (sToggle ls) in
  let r := advanceFrom n t len in
  fst (poll ls) = Js.Int r /\
  sIndex (snd (poll ls)) = Js.Int r /\
  sToggle (snd (poll ls)) = t.
Proof.
  intros Hn t r.
  unfold storedIndex in Hn.
  unfold estimateCurrentIndex. rewrite Hn. fold len.
  change (Js.rem (Js.add (Js.parseInt (Js.orString (ls !! toggleKey currentTrain) "0"))
                         (Js.Int 1)) (Js.Int 2)) with t.
  cbn [Js.max Js.min Js.lt fst snd].
  assert (E : (if (Js.strictEq t (Js.Int 0) &&
                   Z.ltb (Z.min (Z.max n 0) (len - 2)) (len - 2))%bool
               then Js.add (Js.Int (Z.min (Z.max n 0) (len - 2))) (Js.Int 1)
               else Js.Int (Z.min (Z.max n 0) (len - 2))) = Js.Int r).
  { unfold r, advanceFrom. destruct (_ && _)%bool; reflexivity. }
  rewrite E. split; [reflexivity|]. split.
  - unfold storedIndex. rewrite lookup_insert_eq, orString_toString.
    apply parseInt_toString.
  - unfold storedToggle.
    rewrite lookup_insert_ne by apply keys_differ.
    rewrite lookup_insert_eq, orString_toString.
    apply parseInt_toString.
Qed.

(** The persisted index reads as an integer before every poll, and inside
    the valid range after the first. *)
Lemma storedIndex_after (ls : gmap string string) (n : Z) (k : nat) :
  (2 <= len)%Z ->
  sIndex ls = Js.Int n ->
  exists m, sIndex (storageAfter k currentTrain stations ls) = Js.Int m /\
            (k <> O -> 0 <= m <= len - 2).
Proof.
  intros Hlen Hn. induction k as [|k (m & Hm & _)].
  - exists n. split; [assumption | congruence].
  - destruct (poll_from _ _ Hm) as (_ & Hs & _).
    eexists. split; [exact Hs|]. intros _. apply advanceFrom_range, Hlen.
Qed.

(** Poll number [k + 1] in terms of what poll number [k] left. *)
Lemma returned_spec (ls : gmap string string) (n : Z) (k : nat) :
  (2 <= len)%Z ->
  sIndex ls = Js.Int n ->
  exists m,
    sIndex (storageAfter k currentTrain stations ls) = Js.Int m /\
    (k <> O -> 0 <= m <= len - 2) /\
    let t := flipToggle (sToggle (storageAfter k currentTrain stations ls)) in
    returned k currentTrain stations ls = Js.Int (advanceFrom m t len) /\
    sIndex (storageAfter (S k) currentTrain stations ls)
      = Js.Int (advanceFrom m t len) /\
    sToggle (storageAfter (S k) currentTrain stations ls) = t.
Proof.
  intros Hlen Hn.
  destruct (storedIndex_after ls n k Hlen Hn) as (m & Hm & Hr).
  exists m. split; [assumption|]. split; [assumption|].
  exact (poll_from _ _ Hm).
Qed.

End Estimator.

(** C2. For a route with at least two stations and a persisted index that
    reads as a natural number, every poll returns an index in
    [[0, N - 2]], and the index it leaves in [localStorage] is that index. *)
Theorem estimateCurrentIndex_in_range {C : Type} (currentTrain : option string)
  (sts : list (Station C)) (ls : gmap string string) (n : Z) (k : nat) :
  (2 <= length sts)%nat ->
  0 <= n ->
  storedIndex currentTrain ls = Js.Int n ->
  exists i,
    returned k currentTrain sts ls = Js.Int i /\
    0 <= i <= Z.of_nat (length sts) - 2 /\
    storedIndex currentTrain (storageAfter (S k) currentTrain sts ls) = Js.Int i.
Proof.
  intros Hlen _ Hn.
  assert (Hl : 2 <= Z.of_nat (length sts)) by lia.
  destruct (returned_spec currentTrain sts ls n k Hl Hn)
    as (m & _ & _ & Hr & Hs & _).
  eexists. split; [exact Hr|]. split; [|exact Hs].
  apply advanceFrom_range, Hl.
Qed.

Lemma estimateCurrentIndex_in_range_witness :
  exists i,
    returned 2 (Some "INR12627") (stations demoRoute)
      {[ "rail_idx:INR12627" := "7" ]} = Js.Int i /\
    0 <= i <= Z.of_nat (length (stations demoRoute)) - 2 /\
    storedIndex (Some "INR12627")
      (storageAfter 3 (Some "INR12627") (stations demoRoute)
         {[ "rail_idx:INR12627" := "7" ]}) = Js.Int i.
Proof.
  apply (estimateCurrentIndex_in_range (Some "INR12627") (stations demoRoute)
           {[ "rail_idx:INR12627" := "7" ]} 7 2).
  - simpl. lia.
  - lia.
  - reflexivity.
Defined.

Lemma strictEq_zero (t : Js.num) :
  Js.strictEq t (Js.Int 0) = true <-> t = Js.Int 0.
Proof.
  destruct t as [|z]; simpl; [split; discriminate|].
  rewrite Z.eqb_eq. split; [intros ->; reflexivity | congruence].
Qed.

(** The toggles a poll can store, and the toggle the next poll stores. *)
Lemma flipToggle_small (t : Js.num) :
  let t1 := flipToggle t in
  (t1 = Js.NaN \/ t1 = Js.Int (-1) \/ t1 = Js.Int 0 \/ t1 = Js.Int 1) /\
  flipToggle t1 = match t1 with
                  | Js.NaN => Js.NaN
                  | Js.Int 0 => Js.Int 1
                  | Js.Int _ => Js.Int 0
                  end.
Proof.
  intros t1. destruct (flipToggle_cases t) as [E | [E | [E | E]]];
    fold t1 in E; rewrite E; split; auto.
Qed.

(** C4. Over successive polls of a route with at least two stations the
    returned index never decreases, grows by at most 1 from one poll to the
    next and by at most 1 over three successive polls (so at most once per
    two polls).  A poll stores the flip [(t + 1) % 2] of the toggle it
    read: one of NaN, -1, 0, 1, followed at the next poll by 1 after 0 and
    by 0 after 1 or -1 (for the first poll: [(z + 1) % 2] when the
    persisted toggle [z] is below 2^53 in magnitude, [NaN] when it does
    not read as a number).  A poll returns its
    clamped index plus 1 exactly when the toggle it has just flipped is 0
    and the clamped index is below [N - 2], and the clamped index itself
    otherwise. *)
Theorem estimateCurrentIndex_advances {C : Type} (currentTrain : option string)
  (sts : list (Station C)) (ls : gmap string string) (n : Z) (k : nat) :
  (2 <= length sts)%nat ->
  0 <= n ->
  storedIndex currentTrain ls = Js.Int n ->
  exists (m a b c : Z) (t1 t2 : Js.num),
    storedIndex currentTrain (storageAfter k currentTrain sts ls) = Js.Int m /\
    returned k currentTrain sts ls = Js.Int a /\
    returned (S k) currentTrain sts ls = Js.Int b /\
    returned (S (S k)) currentTrain sts ls = Js.Int c /\
    storedToggle currentTrain (storageAfter (S k) currentTrain sts ls) = t1 /\
    storedToggle currentTrain (storageAfter (S (S k)) currentTrain sts ls) = t2 /\
    (t1 = Js.NaN \/ t1 = Js.Int (-1) \/ t1 = Js.Int 0 \/ t1 = Js.Int 1) /\
    t2 = match t1 with
         | Js.NaN => Js.NaN
         | Js.Int 0 => Js.Int 1
         | Js.Int _ => Js.Int 0
         end /\
    (forall z : Z,
       - 2 ^ 53 < z < 2 ^ 53 ->
       storedToggle currentTrain (storageAfter k currentTrain sts ls) = Js.Int z ->
       t1 = Js.Int (Z.rem (z + 1) 2)) /\
    (storedToggle currentTrain (storageAfter k currentTrain sts ls) = Js.NaN ->
     t1 = Js.NaN) /\
    a <= b <= a + 1 /\
    b <= c <= a + 1 /\
    let clamped := Z.min (Z.max m 0) (Z.of_nat (length sts) - 2) in
    (a = clamped \/ a = clamped + 1) /\
    (a = clamped + 1 <-> t1 = Js.Int 0 /\ clamped < Z.of_nat (length sts) - 2) /\
    (b = a + 1 <-> t2 = Js.Int 0 /\ a < Z.of_nat (length sts) - 2).
Proof.
  intros Hlen _ Hn.
  assert (Hl : 2 <= Z.of_nat (length sts)) by lia.
  set (len := Z.of_nat (length sts)) in *.
  destruct (returned_spec currentTrain sts ls n k Hl Hn)
    as (m & Hm & _ & Ha & Hsa & Hta).
  destruct (returned_spec currentTrain sts ls n (S k) Hl Hn)
    as (m1 & Hm1 & Hr1 & Hb & Hsb & Htb).
  destruct (returned_spec currentTrain sts ls n (S (S k)) Hl Hn)
    as (m2 & Hm2 & Hr2 & Hc & _ & _).
  cbv zeta in Ha, Hsa, Hta, Hb, Hsb, Htb, Hc.
  fold len in Ha, Hsa, Hb, Hsb, Hc, Hr1, Hr2.
  set (T0 := storedToggle currentTrain (storageAfter k currentTrain sts ls)) in *.
  set (t0 := flipToggle T0) in *.
  rewrite Hta in Hb, Hsb, Htb. rewrite Htb in Hc.
  assert (E1 : m1 = advanceFrom m t0 len) by congruence. subst m1.
  assert (E2 : m2 = advanceFrom (advanceFrom m t0 len) (flipToggle t0) len)
    by congruence. subst m2.
  specialize (Hr1 ltac:(discriminate)). specialize (Hr2 ltac:(discriminate)).
  destruct (flipToggle_small T0) as [Hsmall Hnext]. fold t0 in Hsmall, Hnext.
  exists m, (advanceFrom m t0 len),
    (advanceFrom (advanceFrom m t0 len) (flipToggle t0) len),
    (advanceFrom (advanceFrom (advanceFrom m t0 len) (flipToggle t0) len)
       (flipToggle (flipToggle t0)) len),
    t0, (flipToggle t0).
  repeat (split; [assumption|]).
  split; [intros z _ Hz; unfold t0; rewrite Hz; reflexivity|].
  split; [intros Hz; unfold t0; rewrite Hz; reflexivity|].
  rewrite (advanceFrom_in_range _ (flipToggle (flipToggle t0)) len Hr2).
  rewrite (advanceFrom_in_range _ (flipToggle t0) len Hr1).
  set (a := advanceFrom m t0 len) in *.
  assert (Hz : Js.strictEq (flipToggle t0) (Js.Int 0) = true ->
               Js.strictEq (flipToggle (flipToggle t0)) (Js.Int 0) = false).
  { intros E. apply strictEq_zero in E.
    rewrite (flipToggle_after_zero _ E). reflexivity. }
  split; [|split; [|split; [|split]]].
  - destruct (Js.strictEq (flipToggle t0) (Js.Int 0) && _)%bool; lia.
  - destruct (Js.strictEq (flipToggle t0) (Js.Int 0)) eqn:E1.
    + rewrite (Hz eq_refl). simpl. destruct (Z.ltb a (len - 2)); lia.
    + simpl. destruct (Js.strictEq _ _ && _)%bool; lia.
  - unfold a, advanceFrom. destruct (Js.strictEq t0 (Js.Int 0) && _)%bool; lia.
  - unfold a, advanceFrom.
    destruct (Js.strictEq t0 (Js.Int 0)) eqn:E1; simpl.
    + apply strictEq_zero in E1.
      destruct (Z.ltb_spec (Z.min (Z.max m 0) (len - 2)) (len - 2)).
      * split; [intros _; split; assumption | reflexivity].
      * split; [lia | intros [_ ?]; lia].
    + split; [lia|]. intros [E _]. apply strictEq_zero in E. congruence.
  - destruct (Js.strictEq (flipToggle t0) (Js.Int 0)) eqn:E1; simpl.
    + apply strictEq_zero in E1.
      destruct (Z.ltb_spec a (len - 2)).
      * split; [intros _; split; assumption | reflexivity].
      * split; [lia | intros [_ ?]; lia].
    + split; [lia|]. intros [E _]. apply strictEq_zero in E. congruence.
Qed.

Lemma estimateCurrentIndex_advances_witness :
  exists (m a b c : Z) (t1 t2 : Js.num),
    storedIndex (Some "INR12627")
      (storageAfter 1 (Some "INR12627") (stations demoRoute) ∅) = Js.Int m /\
    returned 1 (Some "INR12627") (stations demoRoute) ∅ = Js.Int a /\
    returned 2 (Some "INR12627") (stations demoRoute) ∅ = Js.Int b /\
    returned 3 (Some "INR12627") (stations demoRoute) ∅ = Js.Int c /\
    storedToggle (Some "INR12627")
      (storageAfter 2 (Some "INR12627") (stations demoRoute) ∅) = t1 /\
    storedToggle (Some "INR12627")
      (storageAfter 3 (Some "INR12627") (stations demoRoute) ∅) = t2 /\
    (t1 = Js.NaN \/ t1 = Js.Int (-1) \/ t1 = Js.Int 0 \/ t1 = Js.Int 1) /\
    t2 = match t1 with
         | Js.NaN => Js.NaN
         | Js.Int 0 => Js.Int 1
         | Js.Int _ => Js.Int 0
         end /\
    (forall z : Z,
       - 2 ^ 53 < z < 2 ^ 53 ->
       storedToggle (Some "INR12627")
         (storageAfter 1 (Some "INR12627") (stations demoRoute) ∅) = Js.Int z ->
       t1 = Js.Int (Z.rem (z + 1) 2)) /\
    (storedToggle (Some "INR12627")
       (storageAfter 1 (Some "INR12627") (stations demoRoute) ∅) = Js.NaN ->
     t1 = Js.NaN) /\
    a <= b <= a + 1 /\
    b <= c <= a + 1 /\
    let clamped := Z.min (Z.max m 0) (Z.of_nat (length (stations demoRoute)) - 2) in
    (a = clamped \/ a = clamped + 1) /\
    (a = clamped + 1 <->
       t1 = Js.Int 0 /\ clamped < Z.of_nat (length (stations demoRoute)) - 2) /\
    (b = a + 1 <-> t2 = Js.Int 0 /\ a < Z.of_nat (length (stations demoRoute)) - 2).
Proof.
  apply (estimateCurrentIndex_advances (Some "INR12627") (stations demoRoute) ∅ 0 1).
  - simpl. lia.
  - lia.
  - reflexivity.
Defined.

(** C5. Once the persisted index of a route with at least two stations is
    [N - 2], every later poll returns [N - 2] and leaves [N - 2] persisted. *)
Theorem estimateCurrentIndex_holds_last {C : Type} (currentTrain : option string)
  (sts : list (Station C)) (ls : gmap string string) (k : nat) :
  (2 <= length sts)%nat ->
  storedIndex currentTrain ls = Js.Int (Z.of_nat (length sts) - 2) ->
  returned k currentTrain sts ls = Js.Int (Z.of_nat (length sts) - 2) /\
  storedIndex currentTrain (storageAfter (S k) currentTrain sts ls)
    = Js.Int (Z.of_nat (length sts) - 2).
Proof.
  intros Hlen H0.
  set (len := Z.of_nat (length sts)) in *.
  assert (Hl : 2 <= len) by (unfold len; lia).
  assert (Hadv : forall t, advanceFrom (len - 2) t len = len - 2).
  { intros t. rewrite advanceFrom_in_range by lia.
    rewrite Z.ltb_irrefl, andb_false_r. reflexivity. }
  assert (Hinv : forall j,
             storedIndex currentTrain (storageAfter j currentTrain sts ls)
             = Js.Int (len - 2)).
  { induction j as [|j IH]; [exact H0|].
    destruct (poll_from currentTrain sts _ _ IH) as (_ & Hs & _).
    fold len in Hs. rewrite Hadv in Hs. exact Hs. }
  split; [|apply Hinv].
  destruct (poll_from currentTrain sts _ _ (Hinv k)) as (Hr & _).
  fold len in Hr. rewrite Hadv in Hr. exact Hr.
Qed.

Lemma estimateCurrentIndex_holds_last_witness :
  returned 4 (Some "INR12627") (stations demoRoute)
    {[ "rail_idx:INR12627" := "3"; "rail_toggle:INR12627" := "1" ]} = Js.Int 3 /\
  storedIndex (Some "INR12627")
    (storageAfter 5 (Some "INR12627") (stations demoRoute)
       {[ "rail_idx:INR12627" := "3"; "rail_toggle:INR12627" := "1" ]}) = Js.Int 3.
Proof.
  apply (estimateCurrentIndex_holds_last (Some "INR12627") (stations demoRoute)
           {[ "rail_idx:INR12627" := "3"; "rail_toggle:INR12627" := "1" ]} 4).
  - simpl. lia.
  - reflexivity.
Defined.

(** ** GeoMath *)

Section GeoMath.

Local Open Scope R_scope.

Lemma toRad_minus (x y : R) : toRad (x - y) = toRad x - toRad y.
Proof. unfold toRad. lra. Qed.

Lemma toRad_opp (x : R) : toRad (- x) = - toRad x.
Proof. unfold toRad. lra. Qed.

Lemma sin_half_sqr_opp (x : R) : sin (- x / 2) ^ 2 = sin (x / 2) ^ 2.
Proof.
  replace (- x / 2) with (- (x / 2)) by lra. rewrite sin_neg. ring.
Qed.

Lemma sin_half_sqr (x : R) : sin (x / 2) ^ 2 = (1 - cos x) / 2.
Proof.
  replace x with (2 * (x / 2)) at 2 by lra.
  rewrite cos_2a_sin. lra.
Qed.

Lemma asin_nonneg (x : R) : 0 <= x -> 0 <= asin x.
Proof.
  intros Hx. pose proof PI_RGT_0 as Hpi. unfold asin.
  destruct (Rle_dec x (-1)); [lra|].
  destruct (Rle_dec 1 x); [lra|].
  assert (Hs : 0 < sqrt (1 - x²)).
  { apply sqrt_lt_R0. unfold Rsqr. nra. }
  assert (Hq : 0 <= x / sqrt (1 - x²)).
  { apply Rmult_le_pos; [assumption|]. left. apply Rinv_0_lt_compat, Hs. }
  destruct Hq as [Hq | <-]; [|rewrite atan_0; lra].
  left. rewrite <- atan_0. apply atan_increasing, Hq.
Qed.

(** The argument of [Math.sqrt] and of [Math.asin] in [haversine] stays in
    [[0, 1]] for all coordinates: neither call leaves its domain. *)
Lemma haversine_argument (a b : LatLng) :
  let h := sin (toRad (fst b - fst a) / 2) ^ 2 +
           cos (toRad (fst a)) * cos (toRad (fst b)) *
           sin (toRad (snd b - snd a) / 2) ^ 2 in
  0 <= h <= 1.
Proof.
  intros h. unfold h. rewrite !sin_half_sqr, toRad_minus, cos_minus.
  set (u := cos (toRad (snd b - snd a))).
  set (c1 := cos (toRad (fst a))). set (c2 := cos (toRad (fst b))).
  set (s1 := sin (toRad (fst a))). set (s2 := sin (toRad (fst b))).
  assert (H1 : s1 * s1 + c1 * c1 = 1)
    by (pose proof (sin2_cos2 (toRad (fst a))) as H; unfold Rsqr in H; exact H).
  assert (H2 : s2 * s2 + c2 * c2 = 1)
    by (pose proof (sin2_cos2 (toRad (fst b))) as H; unfold Rsqr in H; exact H).
  assert (Hu : -1 <= u <= 1) by apply COS_bound.
  assert (Ha : 0 <= (1 + u) * ((c1 - c2) * (c1 - c2)))
    by (apply Rmult_le_pos; [lra | apply Rle_0_sqr]).
  assert (Hb : 0 <= (1 - u) * ((c1 + c2) * (c1 + c2)))
    by (apply Rmult_le_pos; [lra | apply Rle_0_sqr]).
  assert (Hc : 0 <= (1 - u) * ((c1 - c2) * (c1 - c2)))
    by (apply Rmult_le_pos; [lra | apply Rle_0_sqr]).
  assert (Hd : 0 <= (1 + u) * ((c1 + c2) * (c1 + c2)))
    by (apply Rmult_le_pos; [lra | apply Rle_0_sqr]).
  clearbody u c1 c2 s1 s2.
  split; nra.
Qed.

Lemma haversine_nonneg (a b : LatLng) : 0 <= haversine a b.
Proof.
  unfold haversine. cbv zeta.
  apply Rmult_le_pos; [lra|]. apply asin_nonneg, sqrt_pos.
Qed.

Lemma haversine_sym (a b : LatLng) : haversine a b = haversine b a.
Proof.
  unfold haversine. cbv zeta.
  replace (fst a - fst b) with (- (fst b - fst a)) by lra.
  replace (snd a - snd b) with (- (snd b - snd a)) by lra.
  rewrite !toRad_opp, !sin_half_sqr_opp.
  rewrite (Rmult_comm (cos (toRad (fst b))) (cos (toRad (fst a)))).
  reflexivity.
Qed.


End GeoMath.

(** ** The loop of [polyDistanceKm] and the sum over consecutive pairs *)

Section PathDistance.

Local Open Scope R_scope.

Abbreviation body := loopBody.

Lemma loop_shift (a : LatLng) (l : list LatLng) (n s : nat) (acc : R) :
  (1 <= s)%nat ->
  fold_left (body (a :: l)) (seq (S s) n) acc = fold_left (body l) (seq s n) acc.
Proof.
  revert s acc. induction n as [|n IH]; intros s acc Hs; [reflexivity|].
  cbn [seq fold_left]. rewrite IH by lia. f_equal.
  unfold body, at_. destruct s as [|s]; [lia|].
  replace (S (S s) - 1)%nat with (S (S s - 1)) by lia. reflexivity.
Qed.

Lemma loop_pathDistance (a : LatLng) (l : list LatLng) (acc : R) :
  fold_left (body (a :: l)) (seq 1 (length l)) acc
  = acc + Spec.pathDistanceKm (a :: l).
Proof.
  revert a acc. induction l as [|b l IH]; intros a acc.
  - simpl. lra.
  - cbn [length seq fold_left]. rewrite loop_shift by lia. rewrite IH.
    unfold body, at_. cbn [Nat.sub nth Spec.pathDistanceKm]. lra.
Qed.

Lemma polyDistanceKm_pathDistanceKm (points : list LatLng) :
  polyDistanceKm points = Spec.pathDistanceKm points.
Proof.
  unfold polyDistanceKm. destruct points as [|a l]; [reflexivity|].
  cbn [length]. replace (S (length l) - 1)%nat with (length l) by lia.
  fold (body (a :: l)). rewrite loop_pathDistance. lra.
Qed.

Lemma pathDistanceKm_nonneg (points : list LatLng) :
  0 <= Spec.pathDistanceKm points.
Proof.
  induction points as [|a [|b r] IH]; simpl; try lra.
  pose proof (haversine_nonneg a b). simpl in IH. lra.
Qed.

Lemma pathDistanceKm_tail (a : LatLng) (l : list LatLng) :
  Spec.pathDistanceKm l <= Spec.pathDistanceKm (a :: l).
Proof.
  destruct l as [|b r]; [simpl; lra|].
  change (Spec.pathDistanceKm (a :: b :: r))
    with (haversine a b + Spec.pathDistanceKm (b :: r)).
  pose proof (haversine_nonneg a b). lra.
Qed.

Lemma pathDistanceKm_skipn (k : nat) (l : list LatLng) :
  Spec.pathDistanceKm (skipn k l) <= Spec.pathDistanceKm l.
Proof.
  revert l. induction k as [|k IH]; intros [|a l]; simpl skipn; try lra.
  eapply Rle_trans; [apply IH | apply pathDistanceKm_tail].
Qed.

End PathDistance.

Lemma slice_of_nat {A : Type} (arr : list A) (i : nat) :
  slice arr (Z.of_nat i) = skipn i arr.
Proof.
  unfold slice.
  destruct (Z.ltb_spec (Z.of_nat i) 0) as [|_]; [lia|].
  destruct (Nat.le_gt_cases i (length arr)) as [H|H].
  - rewrite Z.min_l by lia. rewrite Nat2Z.id. reflexivity.
  - rewrite Z.min_r by lia. rewrite Nat2Z.id.
    rewrite !skipn_all2 by lia. reflexivity.
Qed.





(** C6. For a current index inside the station list, [updateEta] computes
    [remainingKm] as the path distance of the coordinates from that index
    on, and the ETA as [now + (remainingKm / 70) * 3600 * 1000]
    milliseconds: the specification's [compute] at a cruise speed of 70. *)
Theorem updateEta_computes (sts : list (Station R)) (currentIdx : Z) (now : R) :
  0 <= currentIdx < Z.of_nat (length sts) ->
  let coords := map (fun s => (lat s, lng s)) sts in
  let km := Spec.pathDistanceKm (Spec.suffix coords (Z.to_nat currentIdx)) in
  remainingKm (updateEta sts currentIdx now) = km /\
  etaMs (updateEta sts currentIdx now) = (now + (km / 70) * 3600 * 1000)%R /\
  (remainingKm (updateEta sts currentIdx now), etaMs (updateEta sts currentIdx now))
    = Spec.compute coords (Z.to_nat currentIdx) now 70.
Proof.
  intros H coords km.
  assert (E : remainingKm (updateEta sts currentIdx now) = km).
  { unfold updateEta, remainingKm. fold coords.
    rewrite <- (Z2Nat.id currentIdx) at 1 by lia.
    rewrite slice_of_nat, polyDistanceKm_pathDistanceKm. reflexivity. }
  assert (E2 : etaMs (updateEta sts currentIdx now)
               = (now + remainingKm (updateEta sts currentIdx now) / 70 * 3600 * 1000)%R)
    by reflexivity.
  rewrite E in E2. repeat split; try assumption.
  unfold Spec.compute. fold km. rewrite E, E2. reflexivity.
Qed.

Lemma updateEta_computes_witness :
  remainingKm (updateEta twoStations 0 1000)
    = Spec.pathDistanceKm
        (Spec.suffix (map (fun s => (lat s, lng s)) twoStations) (Z.to_nat 0)) /\
  etaMs (updateEta twoStations 0 1000)
    = (1000 + (Spec.pathDistanceKm
                 (Spec.suffix (map (fun s => (lat s, lng s)) twoStations) (Z.to_nat 0))
               / 70) * 3600 * 1000)%R /\
  (remainingKm (updateEta twoStations 0 1000), etaMs (updateEta twoStations 0 1000))
    = Spec.compute (map (fun s => (lat s, lng s)) twoStations) (Z.to_nat 0) 1000 70.
Proof.
  apply (updateEta_computes twoStations 0 1000).
  simpl. lia.
Defined.

(** ** PositionAnimator *)

Section Animator.

Local Open Scope R_scope.



Lemma clamp_after_start (start d now : R) :
  0 < d -> start <= now ->
  Spec.clamp ((now - start) / d) 0 1 = Rmin ((now - start) / d) 1.
Proof.
  intros Hd H. unfold Spec.clamp. apply Rmax_right.
  apply Rmin_glb; [|lra].
  apply Rmult_le_pos; [lra|]. left. apply Rinv_0_lt_compat, Hd.
Qed.

(** In exact arithmetic, from the start on, [step] shows the position of
    the specification. *)
Lemma step_positionAt (from to : LatLng) (start d now : R) :
  0 < d -> start <= now ->
  fst (step (animateMarker from to d start) now)
  = Spec.positionAt from to start d now.
Proof.
  intros Hd H. unfold Spec.positionAt.
  rewrite clamp_after_start by assumption. reflexivity.
Qed.

End Animator.

(** ** PositionAnimator and GeoMath on binary64 *)

(** The rounding of the specification of binary64 ([SpecFloat]) leaves a
    mantissa that was only shifted left where it was. *)
Section BinaryRounding.

Import Floats.

Lemma digits2_pos_shift (m : positive) (k : nat) :
  Zpos (digits2_pos (Nat.iter k xO m)) = Zpos (digits2_pos m) + Z.of_nat k.
Proof.
  induction k as [|k IH]; [simpl; lia|].
  rewrite Nat2Z.inj_succ, Nat.iter_succ. cbn [digits2_pos].
  rewrite Pos2Z.inj_succ, IH. lia.
Qed.

Lemma shr_1_iter (m : positive) (k : nat) :
  Nat.iter k shr_1 (Build_shr_record (Zpos (Nat.iter k xO m)) false false)
  = Build_shr_record (Zpos m) false false.
Proof.
  induction k as [|k IH]; [reflexivity|].
  rewrite Nat.iter_succ_r, Nat.iter_succ. cbn [shr_1 orb]. exact IH.
Qed.

Lemma iter_pos_nat {A} (f : A -> A) (p : positive) (x : A) :
  iter_pos f p x = Nat.iter (Pos.to_nat p) f x.
Proof.
  revert x. induction p as [p IH|p IH|]; intros x; cbn [iter_pos].
  - rewrite !IH, Pos2Nat.inj_xI.
    replace (S (2 * Pos.to_nat p))%nat with (Pos.to_nat p + (Pos.to_nat p + 1))%nat by lia.
    rewrite !Nat.iter_add. reflexivity.
  - rewrite !IH, Pos2Nat.inj_xO.
    replace (2 * Pos.to_nat p)%nat with (Pos.to_nat p + Pos.to_nat p)%nat by lia.
    rewrite !Nat.iter_add. reflexivity.
  - reflexivity.
Qed.

Lemma mul_pow2 (m : positive) (k : nat) :
  Pos.mul m (Nat.iter k xO 1%positive) = Nat.iter k xO m.
Proof.
  induction k as [|k IH]; [apply Pos.mul_1_r|].
  rewrite !Nat.iter_succ, Pos.mul_xO_r, IH. reflexivity.
Qed.

(** The product by 1 rounds to the same mantissa and exponent. *)
Lemma SFmul_one (s : bool) (m : positive) (e : Z) :
  valid_binary (S754_finite s m e) = true ->
  SF64mul (S754_finite s m e) (S754_finite false 4503599627370496 (-52))
  = S754_finite s m e.
Proof.
  cbn [SpecFloat.valid_binary]. unfold bounded, canonical_mantissa.
  intros H. apply andb_true_iff in H as [Hc Hb].
  apply Z.eqb_eq in Hc.
  unfold SF64mul, SFmul.
  change 4503599627370496%positive with (Nat.iter 52 xO 1%positive).
  rewrite mul_pow2. rewrite xorb_false_r.
  unfold binary_round_aux.
  assert (S1 : shr_fexp prec emax (Zpos (Nat.iter 52 xO m)) (e + -52) loc_Exact
               = (Build_shr_record (Zpos m) false false, e)).
  { unfold shr_fexp. cbn [Zdigits2]. rewrite digits2_pos_shift.
    replace (Z.pos (digits2_pos m) + Z.of_nat 52 + (e + -52))
      with (Z.pos (digits2_pos m) + e) by lia.
    rewrite Hc. replace (e - (e + -52)) with 52 by lia.
    cbn [shr shr_record_of_loc]. rewrite iter_pos_nat.
    change (Pos.to_nat 52) with 52%nat. rewrite shr_1_iter.
    f_equal. lia. }
  rewrite S1. cbn [shr_m loc_of_shr_record round_nearest_even].
  assert (S2 : shr_fexp prec emax (Zpos m) e loc_Exact
               = (Build_shr_record (Zpos m) false false, e)).
  { unfold shr_fexp. cbn [Zdigits2]. rewrite Hc, Z.sub_diag. reflexivity. }
  rewrite S2. cbn [shr_m]. rewrite Hb. reflexivity.
Qed.

End BinaryRounding.

Section Binary64.

Import Floats.
Local Open Scope float_scope.

Lemma SFcompare_refl (x : spec_float) :
  x <> S754_nan -> SFcompare x x = Some Eq.
Proof.
  destruct x as [s|s| |s m e]; intros H; try congruence; try reflexivity.
  - destruct s; reflexivity.
  - simpl. rewrite Z.compare_refl, Pos.compare_cont_refl. destruct s; reflexivity.
Qed.

Lemma SFcompare_antisym (x y : spec_float) :
  SFcompare y x = match SFcompare x y with Some c => Some (CompOpp c) | None => None end.
Proof.
  destruct x as [s1|s1| |s1 m1 e1], y as [s2|s2| |s2 m2 e2]; simpl;
    try reflexivity; try (destruct s1; reflexivity); try (destruct s2; reflexivity);
    try (destruct s1, s2; reflexivity).
  rewrite (Z.compare_antisym e1 e2).
  destruct s1, s2; try reflexivity;
    destruct (Z.compare e1 e2) eqn:E; simpl; try reflexivity;
    rewrite ?CompOpp_involutive, Pos.compare_cont_antisym; reflexivity.
Qed.

Lemma SFcompare_Eq (x y : spec_float) :
  SFcompare x y = Some Eq ->
  x = y \/ exists s1 s2, x = S754_zero s1 /\ y = S754_zero s2.
Proof.
  destruct x as [s1|s1| |s1 m1 e1], y as [s2|s2| |s2 m2 e2]; simpl;
    try discriminate; try (destruct s1; discriminate); try (destruct s2; discriminate).
  - intros _. right. eauto.
  - destruct s1, s2; try discriminate; auto.
  - intros H. left.
    destruct s1, s2; try discriminate;
      destruct (Z.compare e1 e2) eqn:E; try discriminate;
      apply Z.compare_eq in E; subst e2;
      assert (P : Pos.compare m1 m2 = Eq)
        by (unfold Pos.compare; destruct (Pos.compare_cont Eq m1 m2); 
            simpl in H; congruence);
      apply Pos.compare_eq in P; subst; reflexivity.
Qed.

Lemma is_nan_spec (x : float) :
  is_nan x = match Prim2SF x with S754_nan => true | _ => false end.
Proof.
  unfold is_nan. rewrite eqb_spec. unfold SFeqb.
  destruct (Prim2SF x) eqn:E; try reflexivity;
    rewrite SFcompare_refl by discriminate; reflexivity.
Qed.

Lemma is_finite_spec (x : float) :
  is_finite x = match Prim2SF x with
                | S754_zero _ | S754_finite _ _ _ => true
                | _ => false
                end.
Proof.
  unfold is_finite, is_infinity. rewrite is_nan_spec, eqb_spec, abs_spec.
  change (Prim2SF infinity) with (S754_infinity false).
  destruct (Prim2SF x); reflexivity.
Qed.


Lemma float_ltb_not_nan (x y : float) : (x <? y) = true -> is_nan x = false /\ is_nan y = false.
Proof.
  rewrite ltb_spec, !is_nan_spec. unfold SFltb.
  destruct (Prim2SF x), (Prim2SF y); simpl; try discriminate; auto.
Qed.

Lemma float_leb_not_nan (x y : float) : (x <=? y) = true -> is_nan x = false /\ is_nan y = false.
Proof.
  rewrite leb_spec, !is_nan_spec. unfold SFleb.
  destruct (Prim2SF x), (Prim2SF y); simpl; try discriminate; auto.
Qed.

(** The comparison of two Numbers, one way and the other. *)
Lemma float_leb_ltb (x y : float) : (x <=? y) = true -> (y <? x) = false.
Proof.
  rewrite leb_spec, ltb_spec. unfold SFleb, SFltb.
  rewrite (SFcompare_antisym (Prim2SF x) (Prim2SF y)).
  destruct (SFcompare (Prim2SF x) (Prim2SF y)) as [[]|]; simpl; congruence.
Qed.

Lemma float_not_ltb_leb (x y : float) :
  is_nan x = false -> is_nan y = false -> (x <? y) = false -> (y <=? x) = true.
Proof.
  rewrite leb_spec, ltb_spec, !is_nan_spec. unfold SFleb, SFltb.
  rewrite (SFcompare_antisym (Prim2SF x) (Prim2SF y)).
  destruct (Prim2SF x) eqn:Ex, (Prim2SF y) eqn:Ey; try discriminate; intros _ _;
    destruct (SFcompare _ _) as [[]|] eqn:E; simpl; try congruence;
    simpl in E; discriminate.
Qed.

Lemma float_leb_cases (x y : float) :
  (x <=? y) = true -> (x <? y) = true \/ (x =? y) = true.
Proof.
  rewrite leb_spec, ltb_spec, eqb_spec. unfold SFleb, SFltb, SFeqb.
  destruct (SFcompare _ _) as [[]|]; auto.
Qed.

Lemma float_eqb_eq (x y : float) :
  (x =? y) = true -> is_zero y = false -> x = y.
Proof.
  unfold is_zero. rewrite !eqb_spec. unfold SFeqb.
  change (Prim2SF zero) with (S754_zero false).
  destruct (SFcompare (Prim2SF x) (Prim2SF y)) as [[]|] eqn:E; try discriminate.
  intros _ Hz. apply SFcompare_Eq in E as [E | (s1 & s2 & _ & E)].
  - apply Prim2SF_inj, E.
  - rewrite E in Hz. discriminate.
Qed.

Lemma float_eqb_refl (x : float) : is_nan x = false -> (x =? x) = true.
Proof. unfold is_nan. destruct (x =? x); [reflexivity | discriminate]. Qed.

(** [Math.min(q, 1)], case by case. *)
Lemma Math_min_one (q : float) :
  ((q <? 1) = true -> B64.Math_min q 1 = q) /\
  ((1 <=? q) = true -> B64.Math_min q 1 = 1) /\
  (is_nan q = true -> B64.Math_min q 1 = nan) /\
  (is_nan q = false -> (q <? 1) = true \/ (1 <=? q) = true).
Proof.
  split; [|split; [|split]].
  - intros H. destruct (float_ltb_not_nan _ _ H) as [Hq _].
    unfold B64.Math_min. rewrite Hq, H. reflexivity.
  - intros H. destruct (float_leb_not_nan _ _ H) as [_ Hq].
    unfold B64.Math_min. rewrite Hq, (float_leb_ltb _ _ H). cbn [orb].
    change (is_nan 1) with false. cbv iota.
    destruct (1 <? q) eqn:E; [reflexivity|].
    destruct (float_leb_cases _ _ H) as [L | L]; [congruence|].
    assert (Q : 1 = q).
    { apply float_eqb_eq; [exact L|].
      unfold is_zero. destruct (q =? zero) eqn:Z; [|reflexivity].
      exfalso. revert L Z. rewrite !eqb_spec. unfold SFeqb.
      change (Prim2SF zero) with (S754_zero false).
      change (Prim2SF 1) with (S754_finite false 4503599627370496 (-52)).
      destruct (Prim2SF q) as [s|s| |s m e]; simpl; intros L Z;
        try discriminate; destruct s; discriminate. }
    rewrite <- Q. reflexivity.
  - intros H. unfold B64.Math_min. rewrite H. reflexivity.
  - intros H. destruct (q <? 1) eqn:E; [left; reflexivity | right].
    apply float_not_ltb_leb; [exact H | reflexivity | exact E].
Qed.

(** From a quotient that is not negative, [Math.min(q, 1)] is the progress
    of the specification, as a Number ([===]). *)
Lemma clamp_Math_min (q : float) :
  (0 <=? q) = true -> (B64.clamp q 0 1 =? B64.Math_min q 1) = true.
Proof.
  intros H. destruct (float_leb_not_nan _ _ H) as [_ Hq].
  destruct (Math_min_one q) as (A & B & _ & D).
  unfold B64.clamp.
  destruct (D Hq) as [L | L].
  - rewrite (A L). unfold B64.Math_max.
    rewrite Hq. change (is_nan 0) with false. cbn [orb]. cbv iota.
    destruct (0 <? q) eqn:E; [apply float_eqb_refl, Hq|].
    rewrite (float_leb_ltb _ _ H). change (get_sign 0) with false. cbv iota.
    destruct (float_leb_cases _ _ H) as [L' | L']; [congruence | exact L'].
  - rewrite (B L). reflexivity.
Qed.

(** A finite Number minus itself is [+0]. *)
Lemma float_sub_diag (x : float) : is_finite x = true -> x - x = 0.
Proof.
  rewrite is_finite_spec. intros H. apply Prim2SF_inj.
  rewrite sub_spec. change (Prim2SF 0) with (S754_zero false).
  unfold SF64sub, SFsub.
  destruct (Prim2SF x) as [s|s| |s m e]; try discriminate.
  - destruct s; reflexivity.
  - rewrite Z.sub_diag. reflexivity.
Qed.

(** [+0] divided by a positive Number is [+0]. *)
Lemma float_div_zero_pos (d : float) : (0 <? d) = true -> 0 / d = 0.
Proof.
  rewrite ltb_spec. intros H. apply Prim2SF_inj.
  rewrite div_spec. revert H. change (Prim2SF 0) with (S754_zero false).
  unfold SFltb, SF64div, SFdiv.
  destruct (Prim2SF d) as [s|s| |s m e]; simpl; try discriminate;
    destruct s; try discriminate; reflexivity.
Qed.

(** A finite Number plus a finite Number times [+0] is that Number. *)
Lemma float_add_mul_zero (x y : float) :
  is_finite x = true -> is_finite y = true -> (x + y * 0 =? x) = true.
Proof.
  rewrite !is_finite_spec, eqb_spec, add_spec, mul_spec.
  change (Prim2SF 0) with (S754_zero false).
  unfold SF64add, SF64mul, SFeqb.
  destruct (Prim2SF x) as [s|s| |s m e] eqn:Ex; try discriminate;
    destruct (Prim2SF y) as [t|t| |t n f]; try discriminate; intros _ _.
  - destruct s, t; reflexivity.
  - destruct s, t; reflexivity.
  - cbn [SFmul SFadd]. rewrite SFcompare_refl by discriminate. reflexivity.
  - cbn [SFmul SFadd]. rewrite SFcompare_refl by discriminate. reflexivity.
Qed.


(** A Number times 1 is that Number. *)
Lemma float_mul_one (x : float) : x * 1 = x.
Proof.
  apply Prim2SF_inj. rewrite mul_spec.
  change (Prim2SF 1) with (S754_finite false 4503599627370496 (-52)).
  pose proof (Prim2SF_valid x) as V.
  destruct (Prim2SF x) as [s|s| |s m e].
  - destruct s; reflexivity.
  - destruct s; reflexivity.
  - reflexivity.
  - apply SFmul_one, V.
Qed.

(** C3, as the script computes it.  For a duration [d > 0], [step] shows
    [from + (to - from) * p] in binary64 with [p = Math.min(q, 1)],
    [q = (now - start) / d], and asks for another frame when [p < 1].
    There is no lower clamp: [p] is [q] whenever [q < 1], also before the
    start, where [q] is negative; from [q >= 0] on it is the
    specification's [clamp(q, 0, 1)].  Whenever [q >= 1], [p] is 1, the
    position is [from + (to - from)] as binary64 rounds it, and no frame
    is requested.  At [now = start], for a finite start, [p] is 0 and the
    position is [from + (to - from) * 0], which is [from] for finite
    coordinates whose difference is finite. *)
Theorem step_interpolates (from to : B64.LatLng) (start d now : float) :
  (0 <? d) = true ->
  let a := B64.animateMarker from to d start in
  let q := (now - start) / d in
  let p := B64.Math_min q 1 in
  B64.step a now
    = ((fst from + (fst to - fst from) * p, snd from + (snd to - snd from) * p),
       p <? 1) /\
  ((q <? 1) = true -> p = q) /\
  ((0 <=? q) = true -> (B64.clamp q 0 1 =? p) = true) /\
  ((1 <=? q) = true ->
   p = 1 /\
   B64.step a now
     = ((fst from + (fst to - fst from), snd from + (snd to - snd from)), false)) /\
  (is_finite start = true ->
   B64.step a start
     = ((fst from + (fst to - fst from) * 0, snd from + (snd to - snd from) * 0),
        true) /\
   (is_finite (fst from) = true -> is_finite (fst to - fst from) = true ->
    (fst (fst (B64.step a start)) =? fst from) = true) /\
   (is_finite (snd from) = true -> is_finite (snd to - snd from) = true ->
    (snd (fst (B64.step a start)) =? snd from) = true)).
Proof.
  intros Hd a q p.
  destruct (Math_min_one q) as (A & B & _ & _).
  assert (E0 : B64.step a now
               = ((fst from + (fst to - fst from) * p,
                   snd from + (snd to - snd from) * p), p <? 1))
    by reflexivity.
  split; [exact E0|]. split; [exact A|].
  split; [apply clamp_Math_min|].
  split.
  { intros H. split; [exact (B H)|].
    rewrite E0. unfold p. rewrite (B H), !float_mul_one. reflexivity. }
  intros Hs.
  assert (E : B64.step a start
              = ((fst from + (fst to - fst from) * 0,
                  snd from + (snd to - snd from) * 0), true)).
  { unfold B64.step, a, B64.animateMarker.
    cbn [B64.animFrom B64.animTo B64.animStartTs B64.animDurationOf].
    rewrite (float_sub_diag start Hs), (float_div_zero_pos d Hd). reflexivity. }
  rewrite E. cbn [fst snd].
  split; [reflexivity|]. split; intros F1 F2; apply float_add_mul_zero; assumption.
Qed.

(** The scenario of the specification, started at 1000 ms: half way
    ([now = start + 2000], where the quotient is 0.5), past the end
    ([now = start + 5000], where it is 1.25), at the start, and before the
    start ([now = start - 1000], where it is -0.25). *)
Lemma step_interpolates_witness :
  (B64.step (B64.animateMarker (19.0760, 72.8777) (18.5204, 73.8567) 4000 1000) 3000
   = ((18.7982, 73.3672), true) /\
   B64.Math_min ((3000 - 1000) / 4000) 1 = 0.5 /\
   (B64.clamp ((3000 - 1000) / 4000) 0 1 =? 0.5) = true) /\
  (B64.Math_min ((6000 - 1000) / 4000) 1 = 1 /\
   B64.step (B64.animateMarker (19.0760, 72.8777) (18.5204, 73.8567) 4000 1000) 6000
   = ((18.5204, 73.8567), false)) /\
  (B64.step (B64.animateMarker (19.0760, 72.8777) (18.5204, 73.8567) 4000 1000) 1000
   = ((19.0760, 72.8777), true) /\
   (fst (fst (B64.step
                (B64.animateMarker (19.0760, 72.8777) (18.5204, 73.8567) 4000 1000)
                1000)) =? 19.0760) = true /\
   (snd (fst (B64.step
                (B64.animateMarker (19.0760, 72.8777) (18.5204, 73.8567) 4000 1000)
                1000)) =? 72.8777) = true) /\
  (B64.Math_min ((0 - 1000) / 4000) 1 = -0.25 /\
   B64.step (B64.animateMarker (19.0760, 72.8777) (18.5204, 73.8567) 4000 1000) 0
   = ((19.2149, 72.63295000000001), true)).
Proof.
  destruct (step_interpolates (19.0760, 72.8777) (18.5204, 73.8567) 1000 4000 0
              eq_refl) as (E0 & P0 & _).
  destruct (step_interpolates (19.0760, 72.8777) (18.5204, 73.8567) 1000 4000 3000
              eq_refl) as (E1 & P1 & C1 & _).
  destruct (step_interpolates (19.0760, 72.8777) (18.5204, 73.8567) 1000 4000 6000
              eq_refl) as (_ & _ & _ & P2 & _).
  destruct (step_interpolates (19.0760, 72.8777) (18.5204, 73.8567) 1000 4000 1000
              eq_refl) as (_ & _ & _ & _ & P3).
  destruct (P3 eq_refl) as (E3 & F1 & F2).
  split; [|split; [|split]].
  - split; [rewrite E1, (P1 eq_refl); reflexivity|].
    split; [exact (P1 eq_refl)|].
    specialize (C1 eq_refl). rewrite (P1 eq_refl) in C1. exact C1.
  - destruct (P2 eq_refl) as [Q2 E2]. split; [exact Q2|]. rewrite E2. reflexivity.
  - split; [rewrite E3; reflexivity|].
    split; [exact (F1 eq_refl eq_refl) | exact (F2 eq_refl eq_refl)].
  - split; [exact (P0 eq_refl)|]. rewrite E0, (P0 eq_refl). reflexivity.
Defined.

(** C3 as stated fails in three places.  Before the start: at [now = 0],
    [start = 1000], [d = 4000], from [(0, 0)] to [(4, 8)], the progress is
    [-0.25] and the position [(-1, -2)], not [from].  At the end: from
    [(0.2, 0.2)] to [(0.9, 0.9)] the position at [now = start + d] is
    [0.8999999999999999], not [to].  Half way: from [(0.1, 0.1)] to
    [(0.7, 0.7)] the position at [now = start + d / 2] is [0.4], where the
    midpoint [(0.1 + 0.7) / 2] is [0.39999999999999997]. *)
Lemma step_not_clamped_not_exact_counterexample :
  ((0 <? 4000) = true /\ (0 <=? 1000) = true /\
   B64.Math_min ((0 - 1000) / 4000) 1 = -0.25 /\
   fst (B64.step (B64.animateMarker (0, 0) (4, 8) 4000 1000) 0) = (-1, -2) /\
   (-1 =? 0) = false) /\
  ((0 + 4000 <=? 4000) = true /\
   fst (B64.step (B64.animateMarker (0.2, 0.2) (0.9, 0.9) 4000 0) 4000)
     = (0.8999999999999999, 0.8999999999999999) /\
   (0.8999999999999999 =? 0.9) = false) /\
  (0 + 4000 / 2 = 2000 /\
   fst (B64.step (B64.animateMarker (0.1, 0.1) (0.7, 0.7) 4000 0) 2000) = (0.4, 0.4) /\
   (0.1 + 0.7) / 2 = 0.39999999999999997 /\
   (0.4 =? 0.39999999999999997) = false).
Proof. vm_compute. repeat split. Qed.



End Binary64.

(** ** The payload mapping *)

Lemma getProp_prop (v : JsVal) (k : string) :
  truthy v = true -> getProp v k = Ok (prop v k).
Proof. unfold prop. destruct v; simpl; try discriminate; reflexivity. Qed.

Lemma getProp_cases (v : JsVal) (k : string) :
  getProp v k = Ok (prop v k) \/
  (forall k', getProp v k' = Throw TypeError).
Proof. unfold prop. destruct v; simpl; auto. Qed.

Lemma mapStation_Ok (s : JsVal) (st : Station JsVal) :
  mapStation s = Ok st ->
  st = mkStation (orElse (prop s "code") (JStr "")) (orElse (prop s "name") (JStr ""))
                 (prop s "lat") (prop s "lng")
                 (orElse (prop s "scheduled") (JStr ""))
                 (orElse (prop s "actual") (JStr "")).
Proof.
  unfold mapStation. destruct (getProp_cases s "code") as [E | E].
  - assert (A : forall k, getProp s k = Ok (prop s k)).
    { intros k. unfold prop in *. destruct s; simpl in *; try discriminate; reflexivity. }
    rewrite !A. simpl. congruence.
  - rewrite E. simpl. discriminate.
Qed.

Lemma mapM_Ok {A B : Type} (f : A -> result B) (l : list A) (l' : list B) :
  mapM f l = Ok l' -> Forall2 (fun a b => f a = Ok b) l l'.
Proof.
  revert l'. induction l as [|a l IH]; intros l' H; simpl in H.
  - injection H as <-. constructor.
  - destruct (f a) as [b|e] eqn:Ea; simpl in H; [|discriminate].
    destruct (mapM f l) as [bs|e] eqn:El; simpl in H; [|discriminate].
    injection H as <-. constructor; [assumption | apply IH; reflexivity].
Qed.

(** [mapApiToRoute] past its guard. *)
Lemma mapApiToRoute_guarded (json : JsVal) (items : list JsVal) :
  truthy json = true ->
  truthy (prop json "trainNo") = true ->
  prop json "stations" = JArr items ->
  mapApiToRoute json =
    (let! mapped := mapM mapStation items in
     Ok (mkRoute (prop json "trainNo")
                 (orElse (prop json "trainName") (JStr "Live Train"))
                 (orElse (prop json "delayMinutes") (JNum 0)) mapped)).
Proof.
  intros Hj Hn Hs. unfold mapApiToRoute.
  rewrite Hj, !getProp_prop by assumption. cbn [negb bind].
  rewrite Hn, Hs. cbn [negb]. reflexivity.
Qed.

Lemma mapApiToRoute_guard (json : JsVal) :
  truthy json = false \/ truthy (prop json "trainNo") = false \/
  isArray (prop json "stations") = false ->
  mapApiToRoute json = Throw SchemaMismatch.
Proof.
  intros H. unfold mapApiToRoute.
  destruct (truthy json) eqn:Hj; [|reflexivity].
  rewrite !getProp_prop by assumption. cbn [negb bind].
  destruct (truthy (prop json "trainNo")) eqn:Hn; [|reflexivity].
  cbn [negb].
  destruct H as [H | [H | H]]; try discriminate.
  destruct (prop json "stations"); try reflexivity. discriminate.
Qed.

Lemma mapApiToRoute_Ok_inv (json : JsVal) (r : Route) :
  mapApiToRoute json = Ok r ->
  truthy json = true /\ truthy (prop json "trainNo") = true /\
  exists items, prop json "stations" = JArr items.
Proof.
  intros H.
  destruct (truthy json) eqn:Hj;
    [|rewrite mapApiToRoute_guard in H by auto; discriminate].
  destruct (truthy (prop json "trainNo")) eqn:Hn;
    [|rewrite mapApiToRoute_guard in H by auto; discriminate].
  destruct (prop json "stations") as [| | | | |items|] eqn:Hs;
    try (rewrite mapApiToRoute_guard in H by (rewrite Hs; auto); discriminate).
  eauto.
Qed.

Lemma mapStation_returns (s : JsVal) :
  (exists st, mapStation s = Ok st) <-> nullish s = false.
Proof.
  split.
  - intros [st H]. destruct s; try reflexivity; discriminate.
  - intros H. destruct s; try discriminate; eexists; reflexivity.
Qed.

Lemma mapM_returns {A B : Type} (f : A -> result B) (l : list A) :
  (exists l', mapM f l = Ok l') <-> Forall (fun a => exists b, f a = Ok b) l.
Proof.
  induction l as [|a l IH]; simpl.
  - split; [constructor | eauto].
  - split.
    + intros [l' H]. destruct (f a) as [b|e] eqn:Ea; simpl in H; [|discriminate].
      destruct (mapM f l) as [bs|e] eqn:El; simpl in H; [|discriminate].
      constructor; [eauto | apply IH; eauto].
    + intros H. inversion H as [|? ? [b Hb] Hl]; subst.
      apply IH in Hl as [bs Hbs]. rewrite Hb, Hbs. simpl. eauto.
Qed.

(** C10. [mapApiToRoute] accepts a payload exactly when it is truthy, has
    a truthy [trainNo] and a [stations] array, and no station is [null].
    The route it then returns keeps the number of stations, takes [lat]
    and [lng] of each station as they are, keeps [code], [name],
    [scheduled] and [actual] where they are truthy and puts the empty
    string where they are missing (or falsy), and defaults [delayMinutes]
    to 0. *)
Theorem mapApiToRoute_preserves (json : JsVal) :
  ((exists r, mapApiToRoute json = Ok r) <->
   truthy json = true /\ truthy (prop json "trainNo") = true /\
   exists items, prop json "stations" = JArr items /\
                 Forall (fun s => nullish s = false) items) /\
  forall r : Route,
    mapApiToRoute json = Ok r ->
    exists items,
      prop json "stations" = JArr items /\
      truthy (prop json "trainNo") = true /\
      trainNo r = prop json "trainNo" /\
      delayMinutes r = (if truthy (prop json "delayMinutes")
                        then prop json "delayMinutes" else JNum 0) /\
      length (stations r) = length items /\
      forall (i : nat) (s : JsVal),
        items !! i = Some s ->
        exists st,
          stations r !! i = Some st /\
          lat st = prop s "lat" /\
          lng st = prop s "lng" /\
          code st = (if truthy (prop s "code") then prop s "code" else JStr "") /\
          name st = (if truthy (prop s "name") then prop s "name" else JStr "") /\
          sch st = (if truthy (prop s "scheduled") then prop s "scheduled" else JStr "") /\
          act st = (if truthy (prop s "actual") then prop s "actual" else JStr "").
Proof.
  split.
  - split.
    + intros [r H].
      destruct (mapApiToRoute_Ok_inv _ _ H) as (Hj & Hn & items & Hs).
      repeat (split; [assumption|]). exists items. split; [assumption|].
      rewrite (mapApiToRoute_guarded json items Hj Hn Hs) in H.
      destruct (mapM mapStation items) as [mapped|e] eqn:Hm; [|discriminate].
      assert (F : Forall (fun a => exists b, mapStation a = Ok b) items)
        by (apply mapM_returns; eauto).
      eapply Forall_impl; [exact F|]. intros s. apply mapStation_returns.
    + intros (Hj & Hn & items & Hs & Hi).
      rewrite (mapApiToRoute_guarded json items Hj Hn Hs).
      assert (F : exists l', mapM mapStation items = Ok l').
      { apply mapM_returns. eapply Forall_impl; [exact Hi|].
        intros s. apply mapStation_returns. }
      destruct F as [l' ->]. simpl. eauto.
  - intros r H.
    destruct (mapApiToRoute_Ok_inv _ _ H) as (Hj & Hn & items & Hs).
    rewrite (mapApiToRoute_guarded json items Hj Hn Hs) in H.
    destruct (mapM mapStation items) as [mapped|e] eqn:Hm; simpl in H; [|discriminate].
    injection H as <-. apply mapM_Ok in Hm.
    exists items. repeat (split; [reflexivity || assumption|]).
    split; [symmetry; apply (Forall2_length _ _ _ Hm)|].
    intros i s Hi.
    destruct (Forall2_lookup_l _ _ _ _ _ Hm Hi) as (st & Hst & Hmap).
    exists st. split; [exact Hst|].
    rewrite (mapStation_Ok _ _ Hmap). repeat split; reflexivity.
Qed.

Lemma mapApiToRoute_preserves_witness :
  exists items,
    prop onePayload "stations" = JArr items /\
    truthy (prop onePayload "trainNo") = true /\
    trainNo oneRoute = prop onePayload "trainNo" /\
    delayMinutes oneRoute = (if truthy (prop onePayload "delayMinutes")
         then prop onePayload "delayMinutes" else JNum 0) /\
    length (stations oneRoute) = length items /\
    forall (i : nat) (s : JsVal),
      items !! i = Some s ->
      exists st,
        stations oneRoute !! i = Some st /\
        lat st = prop s "lat" /\
        lng st = prop s "lng" /\
        code st = (if truthy (prop s "code") then prop s "code" else JStr "") /\
        name st = (if truthy (prop s "name") then prop s "name" else JStr "") /\
        sch st = (if truthy (prop s "scheduled") then prop s "scheduled" else JStr "") /\
        act st = (if truthy (prop s "actual") then prop s "actual" else JStr "").
Proof.
  apply (proj2 (mapApiToRoute_preserves onePayload)).
  reflexivity.
Defined.

(** ** The route provider *)

(** The provider, by what its live branch delivers. *)
Lemma getRouteProvider_cases (ui : Controls) (t : string) (net : Net)
  (shown : list string) :
  getRouteProvider ui t net shown =
    match liveRoute ui t net with
    | Some r => (Ok (ARoute r), shown)
    | None =>
        (Ok (mockOrDefault t),
         if liveConfigured ui
         then toast "Live API failed, using demo route." shown else shown)
    end.
Proof.
  unfold getRouteProvider, liveRoute, liveConfigured.
  destruct (useLiveApi_checked ui && nonEmpty (trim (apiUrl_value ui)))%bool;
    [|reflexivity].
  unfold tryCatch.
  destruct (tryFetchLiveRoute net t (trim (apiUrl_value ui)) (trim (apiKey_value ui)))
    as [r|e]; simpl; [|reflexivity].
  destruct (isEmptyRoute r); reflexivity.
Qed.

(** A payload delivered by the network reaches [mapApiToRoute]. *)
Lemma tryFetchLiveRoute_answering (j : JsVal) (t apiUrl apiKey : string) :
  nonEmpty apiUrl = true ->
  tryFetchLiveRoute (answering j) t apiUrl apiKey = mapApiToRoute j.
Proof. intros H. unfold tryFetchLiveRoute. rewrite H. reflexivity. Qed.

(** C7, as the script has it.  [mapApiToRoute] throws on a payload that is
    falsy, has no truthy [trainNo], or whose [stations] is not an array.
    A payload with a truthy [trainNo] and an empty [stations] array is
    mapped, to a route without stations; it is the provider of
    [getRouteProvider] that turns it down and resolves to the static
    dataset, with a toast. *)
Theorem mapApiToRoute_rejects (json : JsVal) :
  (truthy json = false \/ truthy (prop json "trainNo") = false \/
   isArray (prop json "stations") = false ->
   mapApiToRoute json = Throw SchemaMismatch) /\
  (truthy json = true -> truthy (prop json "trainNo") = true ->
   prop json "stations" = JArr [] ->
   (exists r, mapApiToRoute json = Ok r /\ stations r = []) /\
   forall (ui : Controls) (t : string) (shown : list string),
     liveConfigured ui = true ->
     getRouteProvider ui t (answering json) shown
     = (Ok (mockOrDefault t), toast "Live API failed, using demo route." shown)).
Proof.
  split; [apply mapApiToRoute_guard|].
  intros Hj Hn Hs.
  pose proof (mapApiToRoute_guarded json [] Hj Hn Hs) as E. simpl in E.
  split; [eexists; split; [exact E | reflexivity]|].
  intros ui t shown Hlive.
  rewrite getRouteProvider_cases. unfold liveRoute. rewrite Hlive.
  rewrite tryFetchLiveRoute_answering, E.
  - reflexivity.
  - unfold liveConfigured in Hlive. apply andb_true_iff in Hlive. tauto.
Qed.

Lemma mapApiToRoute_rejects_witness :
  mapApiToRoute (JObj {[ "trainNo" := JStr "INR12627" ]}) = Throw SchemaMismatch /\
  (exists r, mapApiToRoute emptyPayload = Ok r /\ stations r = []) /\
  getRouteProvider (mkControls true "https://api.example/{trainNo}" "") "INR12627"
    (answering emptyPayload) []
  = (Ok (mockOrDefault "INR12627"), toast "Live API failed, using demo route." []).
Proof.
  split.
  - apply (proj1 (mapApiToRoute_rejects (JObj {[ "trainNo" := JStr "INR12627" ]}))).
    right. right. reflexivity.
  - destruct (proj2 (mapApiToRoute_rejects emptyPayload)
                eq_refl eq_refl eq_refl) as [H1 H2].
    split; [exact H1|]. apply H2. reflexivity.
Defined.

(** C7 as stated fails on an empty [stations] array: [mapApiToRoute]
    returns a route without stations and does not throw. *)
Lemma mapApiToRoute_empty_stations_counterexample :
  prop emptyPayload "stations" = JArr [] /\
  mapApiToRoute emptyPayload
  = Ok (mkRoute (JStr "INR12627") (JStr "Live Train") (JNum 0) []).
Proof. split; reflexivity. Qed.

Lemma upperChar_not_lower (c : ascii) :
  (N.leb 97 (N_of_ascii (upperChar c)) && N.leb (N_of_ascii (upperChar c)) 122)%bool
  = false.
Proof. destruct c as [[] [] [] [] [] [] [] []]; reflexivity. Qed.

Lemma hasLower_asciiUpper (s : string) : hasLower (asciiUpper s) = false.
Proof.
  induction s as [|c s IH]; [reflexivity|].
  cbn [asciiUpper hasLower]. rewrite upperChar_not_lower, IH. reflexivity.
Qed.

(** Every member of [Object.prototype] has a lower-case letter in its
    name, so an upper-cased identifier names none of them. *)
Lemma not_a_prototype_name (t : string) :
  hasLower t = false -> existsb (String.eqb t) objectPrototypeNames = false.
Proof.
  intros H. destruct (existsb _ _) eqn:E; [|reflexivity].
  apply existsb_exists in E as (nm & Hin & Heq).
  apply String.eqb_eq in Heq. subst nm.
  assert (A : forallb hasLower objectPrototypeNames = true) by reflexivity.
  rewrite forallb_forall in A. rewrite (A _ Hin) in H. discriminate.
Qed.

Lemma mockOrDefault_upper (t : string) :
  hasLower t = false ->
  exists f, mockOrDefault t = ARoute f /\ isFallback t f /\
            (2 <= length (stations f))%nat.
Proof.
  intros H. unfold mockOrDefault, mockLookup, isFallback.
  rewrite (not_a_prototype_name t H).
  destruct (MOCK_ROUTES !! t) as [f|] eqn:E.
  - exists f. split; [reflexivity|]. split; [left; reflexivity|].
    unfold MOCK_ROUTES in E. apply lookup_singleton_Some in E as [_ <-].
    simpl. lia.
  - exists demoRoute. split; [reflexivity|].
    split; [right; split; reflexivity|]. simpl. lia.
Qed.

(** Why the identifier is taken as the callers pass it: both call
    [getRouteProvider] on the result of [toUpperCase()], which holds no
    letter a to z.  On a name of [Object.prototype], which such a string
    never is, the lookup in the object literal finds the inherited
    member. *)
Lemma mockOrDefault_prototype_name :
  mockOrDefault "constructor" = APrototypeMember "constructor".
Proof. reflexivity. Qed.

(** C1. For an identifier as both callers pass it (a result of
    [toUpperCase()], so without a letter a to z), whatever the controls
    and whatever the network answers, the provider resolves and does not
    reject; and when no live provider is configured, or the live call
    throws (network failure, response not ok, unparsable body, schema
    mismatch, null station), or the mapped route has no station, it
    resolves to the entry of the static dataset for the identifier (the
    default entry when it has none), which has at least two stations. *)
Theorem getRouteProvider_never_raises (ui : Controls) (t : string) (net : Net)
  (shown : list string) :
  hasLower t = false ->
  let live := tryFetchLiveRoute net t (trim (apiUrl_value ui)) (trim (apiKey_value ui)) in
  exists v shown',
    getRouteProvider ui t net shown = (Ok v, shown') /\
    (liveConfigured ui = false \/ (exists e, live = Throw e) \/
     (exists r, live = Ok r /\ stations r = []) ->
     exists f, v = ARoute f /\ isFallback t f /\ (2 <= length (stations f))%nat).
Proof.
  intros Ht live.
  destruct (mockOrDefault_upper t Ht) as (f & Hf & Hfb & Hlen).
  rewrite getRouteProvider_cases. unfold liveRoute. fold live.
  destruct (liveConfigured ui) eqn:Hc.
  - destruct live as [r|e] eqn:Hl.
    + destruct (isEmptyRoute r) eqn:He.
      * eexists _, _. split; [reflexivity|]. intros _. rewrite Hf. eauto.
      * eexists _, _. split; [reflexivity|].
        intros [H | [[e H] | (r' & H & Hr')]]; try discriminate.
        injection H as <-. unfold isEmptyRoute in He. rewrite Hr' in He.
        discriminate.
    + eexists _, _. split; [reflexivity|]. intros _. rewrite Hf. eauto.
  - eexists _, _. split; [reflexivity|]. intros _. rewrite Hf. eauto.
Qed.

Lemma getRouteProvider_never_raises_witness :
  exists v shown',
    getRouteProvider (mkControls true "https://api.example/{trainNo}" "key")
      "INR99999" unreachable [] = (Ok v, shown') /\
    exists f, v = ARoute f /\ isFallback "INR99999" f /\
              (2 <= length (stations f))%nat.
Proof.
  destruct (getRouteProvider_never_raises
              (mkControls true "https://api.example/{trainNo}" "key")
              "INR99999" unreachable [] eq_refl)
    as (v & shown' & E & F).
  exists v, shown'. split; [exact E|].
  apply F. right. left. exists NetworkFailure. reflexivity.
Defined.

(* ------------------------------------------------------------------ *)
(** * Further properties of the script *)

(** ** The cursor over many polls *)

Lemma flipToggle_Int (z : Z) : flipToggle (Js.Int z) = Js.Int (Z.rem (z + 1) 2).
Proof. reflexivity. Qed.

Lemma flipToggle_parity (z : Z) :
  (z mod 2 = 1 -> Z.rem (z + 1) 2 = 0) /\
  (z mod 2 = 0 -> Z.rem (z + 1) 2 <> 0 /\ Z.rem (z + 1) 2 mod 2 = 1).
Proof.
  pose proof (Z.rem_mod_eq_0 (z + 1) 2 ltac:(lia)) as E.
  pose proof (Z.rem_bound_abs (z + 1) 2 ltac:(lia)) as B.
  split; intros H.
  - apply E. Z.div_mod_to_equations. lia.
  - assert (N0 : Z.rem (z + 1) 2 <> 0).
    { intros H0. apply E in H0. Z.div_mod_to_equations. lia. }
    split; [exact N0|].
    assert (Z.rem (z + 1) 2 = 1 \/ Z.rem (z + 1) 2 = -1) as [-> | ->] by lia;
      reflexivity.
Qed.

(** One poll on integers: with the potential [2 * clamped + parity], which
    grows by 1 at every poll below the last segment. *)
Lemma advanceFrom_potential (m T len : Z) :
  2 <= len ->
  let c := clampIndex m len in
  let r := advanceFrom m (flipToggle (Js.Int T)) len in
  let T' := Z.rem (T + 1) 2 in
  0 <= r <= len - 2 /\
  (c < len - 2 -> r < len - 2 -> 2 * r + T' mod 2 = 2 * c + T mod 2 + 1) /\
  (c < len - 2 -> r = len - 2 -> 2 * c + T mod 2 + 1 = 2 * (len - 2)) /\
  (c = len - 2 -> r = len - 2) /\
  r = Z.min ((2 * c + T mod 2 + 1) / 2) (len - 2).
Proof.
  intros Hlen c r T'.
  pose proof (flipToggle_parity T) as [Podd Peven].
  assert (Hc : 0 <= c <= len - 2) by (unfold c, clampIndex; lia).
  assert (HT : T mod 2 = 0 \/ T mod 2 = 1) by (Z.div_mod_to_equations; lia).
  unfold r, advanceFrom. fold (clampIndex m len). fold c.
  rewrite flipToggle_Int. fold T'. cbn [Js.strictEq].
  destruct HT as [HT | HT].
  - destruct (Peven HT) as [N0 P1]. fold T' in N0, P1.
    apply Z.eqb_neq in N0. rewrite N0. cbn [andb]. rewrite HT, P1.
    repeat split; try lia.
    replace ((2 * c + 0 + 1) / 2) with c by (Z.div_mod_to_equations; lia). lia.
  - pose proof (Podd HT) as Z0. fold T' in Z0. rewrite Z0. cbn [Z.eqb andb].
    rewrite HT.
    replace ((2 * c + 1 + 1) / 2) with (c + 1) by (Z.div_mod_to_equations; lia).
    change (0 mod 2) with 0.
    destruct (Z.ltb_spec c (len - 2)); repeat split; lia.
Qed.

Lemma poll_potential {C : Type} (currentTrain : option string)
  (sts : list (Station C)) (ls : gmap string string) (n z : Z) (k : nat) :
  2 <= Z.of_nat (length sts) ->
  storedIndex currentTrain ls = Js.Int n ->
  storedToggle currentTrain ls = Js.Int z ->
  let len := Z.of_nat (length sts) in
  let phi := 2 * clampIndex n len + z mod 2 in
  exists m T,
    storedIndex currentTrain (storageAfter k currentTrain sts ls) = Js.Int m /\
    storedToggle currentTrain (storageAfter k currentTrain sts ls) = Js.Int T /\
    (clampIndex m len < len - 2 ->
     2 * clampIndex m len + T mod 2 = phi + Z.of_nat k) /\
    (clampIndex m len = len - 2 -> 2 * (len - 2) <= phi + Z.of_nat k).
Proof.
  intros Hlen Hn Hz len phi. induction k as [|k (m & T & Hm & HT & Hlt & Heq)].
  - pose proof (Z.mod_pos_bound z 2 ltac:(lia)) as Bz.
    exists n, z. repeat split; try assumption; unfold phi; lia.
  - destruct (poll_from currentTrain sts _ _ Hm) as (_ & Hs & Ht).
    rewrite HT in Hs, Ht. fold len in Hs.
    destruct (advanceFrom_potential m T len Hlen) as (Hr & P1 & P2 & P3 & _).
    set (r := advanceFrom m (flipToggle (Js.Int T)) len) in *.
    exists r, (Z.rem (T + 1) 2).
    cbn [storageAfter]. split; [exact Hs|]. split; [exact Ht|].
    assert (Ec : clampIndex r len = r) by (unfold clampIndex; lia).
    rewrite Ec.
    assert (Hcm : 0 <= clampIndex m len <= len - 2) by (unfold clampIndex; lia).
    split; intros Hr'.
    + assert (clampIndex m len < len - 2) by lia.
      rewrite (P1 ltac:(assumption) Hr'). rewrite Hlt by assumption. lia.
    + destruct (Z.eq_dec (clampIndex m len) (len - 2)) as [E|E].
      * specialize (Heq E). lia.
      * assert (L : clampIndex m len < len - 2) by lia.
        specialize (P2 L Hr'). specialize (Hlt L). lia.
Qed.

Lemma returned_closed_form {C : Type} (currentTrain : option string)
  (sts : list (Station C)) (ls : gmap string string) (n z : Z) (k : nat) :
  2 <= Z.of_nat (length sts) ->
  storedIndex currentTrain ls = Js.Int n ->
  storedToggle currentTrain ls = Js.Int z ->
  returned k currentTrain sts ls
  = Js.Int (Z.min ((2 * clampIndex n (Z.of_nat (length sts)) + z mod 2
                    + Z.of_nat k + 1) / 2)
                  (Z.of_nat (length sts) - 2)).
Proof.
  intros Hlen Hn Hz.
  destruct (poll_potential currentTrain sts ls n z k Hlen Hn Hz)
    as (m & T & Hm & HT & Hlt & Heq).
  destruct (poll_from currentTrain sts _ _ Hm) as (Hr & _).
  unfold returned. rewrite Hr, HT. f_equal.
  set (len := Z.of_nat (length sts)) in *.
  destruct (advanceFrom_potential m T len Hlen) as (_ & _ & _ & P3 & ->).
  assert (Hcm : 0 <= clampIndex m len <= len - 2) by (unfold clampIndex; lia).
  pose proof (Z.mod_pos_bound T 2 ltac:(lia)) as BT.
  destruct (Z.eq_dec (clampIndex m len) (len - 2)) as [E|E].
  - specialize (Heq E). rewrite E.
    rewrite !Z.min_r; [reflexivity | |];
      apply Z.div_le_lower_bound; lia.
  - rewrite Hlt by lia. reflexivity.
Qed.

(** X1. The index a poll returns, in closed form: with a persisted index
    that reads as the integer [n] and a persisted toggle that reads as an
    integer [z] below 2^53 in magnitude, poll number [k + 1] of a route
    with [N >= 2] stations returns
    [min(floor((2c + z mod 2 + k + 1) / 2), N - 2)], [c] being [n] clamped
    into [[0, N - 2]].  From an empty [localStorage] that is
    [min(floor((k + 1) / 2), N - 2)]: 0, 1, 1, 2, 2, ... *)
Theorem estimateCurrentIndex_closed_form {C : Type} (currentTrain : option string)
  (sts : list (Station C)) (ls : gmap string string) (n z : Z) (k : nat) :
  (2 <= length sts)%nat ->
  storedIndex currentTrain ls = Js.Int n ->
  storedToggle currentTrain ls = Js.Int z ->
  - 2 ^ 53 < z < 2 ^ 53 ->
  returned k currentTrain sts ls
  = Js.Int (Z.min ((2 * clampIndex n (Z.of_nat (length sts)) + z mod 2
                    + Z.of_nat k + 1) / 2)
                  (Z.of_nat (length sts) - 2)).
Proof. intros H Hn Hz _. apply returned_closed_form; [lia | exact Hn | exact Hz]. Qed.

Lemma estimateCurrentIndex_closed_form_witness :
  returned 4 (Some "INR12627") (stations demoRoute) ∅
  = Js.Int (Z.min ((2 * clampIndex 0 (Z.of_nat (length (stations demoRoute)))
                    + 0 mod 2 + Z.of_nat 4 + 1) / 2)
                  (Z.of_nat (length (stations demoRoute)) - 2)).
Proof.
  apply (estimateCurrentIndex_closed_form (Some "INR12627") (stations demoRoute) ∅ 0 0 4).
  - simpl. lia.
  - reflexivity.
  - reflexivity.
  - lia.
Defined.

(** X2. The cursor arrives: with a persisted index that reads as an
    integer and a persisted toggle that reads as an integer below 2^53 in
    magnitude, every poll from number [2 (N - 2)] on returns [N - 2]. *)
Theorem estimateCurrentIndex_reaches_last {C : Type} (currentTrain : option string)
  (sts : list (Station C)) (ls : gmap string string) (n z : Z) (k : nat) :
  (2 <= length sts)%nat ->
  storedIndex currentTrain ls = Js.Int n ->
  storedToggle currentTrain ls = Js.Int z ->
  - 2 ^ 53 < z < 2 ^ 53 ->
  2 * (Z.of_nat (length sts) - 2) <= Z.of_nat k + 1 ->
  returned k currentTrain sts ls = Js.Int (Z.of_nat (length sts) - 2).
Proof.
  intros Hlen Hn Hz _ Hk.
  rewrite (returned_closed_form currentTrain sts ls n z k ltac:(lia) Hn Hz).
  f_equal. apply Z.min_r.
  pose proof (Z.mod_pos_bound z 2 ltac:(lia)) as Bz.
  assert (0 <= clampIndex n (Z.of_nat (length sts))) by (unfold clampIndex; lia).
  apply Z.div_le_lower_bound; lia.
Qed.

Lemma estimateCurrentIndex_reaches_last_witness :
  returned 5 (Some "INR12627") (stations demoRoute) ∅
  = Js.Int (Z.of_nat (length (stations demoRoute)) - 2).
Proof.
  apply (estimateCurrentIndex_reaches_last (Some "INR12627") (stations demoRoute) ∅ 0 0 5).
  - simpl. lia.
  - reflexivity.
  - reflexivity.
  - lia.
  - simpl. lia.
Defined.

Lemma poll_from_NaN {C : Type} (currentTrain : option string)
  (sts : list (Station C)) (ls : gmap string string) :
  storedIndex currentTrain ls = Js.NaN ->
  fst (estimateCurrentIndex currentTrain sts ls) = Js.NaN /\
  storedIndex currentTrain (snd (estimateCurrentIndex currentTrain sts ls)) = Js.NaN.
Proof.
  intros H. unfold storedIndex in H. unfold estimateCurrentIndex. rewrite H.
  cbn [Js.max Js.min Js.lt fst snd]. rewrite andb_false_r.
  split; [reflexivity|].
  unfold storedIndex. rewrite lookup_insert_eq. reflexivity.
Qed.

(** X3. A persisted index that does not read as a number is never
    repaired: every poll returns [NaN] and writes ["NaN"] back. *)
Theorem estimateCurrentIndex_NaN_index {C : Type} (currentTrain : option string)
  (sts : list (Station C)) (ls : gmap string string) (k : nat) :
  storedIndex currentTrain ls = Js.NaN ->
  returned k currentTrain sts ls = Js.NaN /\
  storageAfter (S k) currentTrain sts ls !! idxKey currentTrain = Some "NaN" /\
  stationAt sts (returned k currentTrain sts ls) = None.
Proof.
  intros H.
  assert (Inv : forall j, storedIndex currentTrain (storageAfter j currentTrain sts ls)
                          = Js.NaN).
  { induction j as [|j IH]; [exact H|].
    cbn [storageAfter]. apply (poll_from_NaN currentTrain sts _ IH). }
  destruct (poll_from_NaN currentTrain sts _ (Inv k)) as [Hr _].
  unfold returned. rewrite Hr. split; [reflexivity|]. split; [|reflexivity].
  cbn [storageAfter]. unfold estimateCurrentIndex.
  pose proof (Inv k) as Hk. unfold storedIndex in Hk. rewrite Hk.
  cbn [Js.max Js.min Js.lt fst snd]. rewrite andb_false_r.
  rewrite lookup_insert_eq. reflexivity.
Qed.

Lemma estimateCurrentIndex_NaN_index_witness :
  returned 3 (Some "INR12627") (stations demoRoute)
    {[ "rail_idx:INR12627" := "two" ]} = Js.NaN /\
  storageAfter 4 (Some "INR12627") (stations demoRoute)
    {[ "rail_idx:INR12627" := "two" ]} !! idxKey (Some "INR12627") = Some "NaN" /\
  stationAt (stations demoRoute)
    (returned 3 (Some "INR12627") (stations demoRoute)
       {[ "rail_idx:INR12627" := "two" ]}) = None.
Proof.
  apply (estimateCurrentIndex_NaN_index (Some "INR12627") (stations demoRoute)
           {[ "rail_idx:INR12627" := "two" ]} 3).
  reflexivity.
Defined.

(** X4. A persisted toggle that does not read as a number freezes the
    cursor: every poll returns the persisted index clamped into
    [[0, N - 2]], and the toggle stays [NaN]. *)
Theorem estimateCurrentIndex_NaN_toggle {C : Type} (currentTrain : option string)
  (sts : list (Station C)) (ls : gmap string string) (n : Z) (k : nat) :
  (2 <= length sts)%nat ->
  storedIndex currentTrain ls = Js.Int n ->
  storedToggle currentTrain ls = Js.NaN ->
  returned k currentTrain sts ls = Js.Int (clampIndex n (Z.of_nat (length sts))) /\
  storedToggle currentTrain (storageAfter (S k) currentTrain sts ls) = Js.NaN.
Proof.
  intros Hlen Hn Ht.
  set (len := Z.of_nat (length sts)).
  assert (Hadv : forall m, advanceFrom m Js.NaN len = clampIndex m len) by reflexivity.
  assert (Inv : forall j, exists m,
             storedIndex currentTrain (storageAfter j currentTrain sts ls) = Js.Int m /\
             clampIndex m len = clampIndex n len /\
             storedToggle currentTrain (storageAfter j currentTrain sts ls) = Js.NaN).
  { induction j as [|j (m & Hm & Hc & HT)]; [exists n; auto|].
    destruct (poll_from currentTrain sts _ _ Hm) as (_ & Hs & Htg).
    rewrite HT in Hs, Htg. fold len in Hs.
    change (flipToggle Js.NaN) with Js.NaN in Hs, Htg. rewrite Hadv in Hs.
    exists (clampIndex m len). cbn [storageAfter].
    split; [exact Hs|]. split; [|exact Htg].
    rewrite Hc. unfold clampIndex, len. lia. }
  destruct (Inv k) as (m & Hm & Hc & HT).
  destruct (poll_from currentTrain sts _ _ Hm) as (Hr & _ & Htg).
  rewrite HT in Hr, Htg. fold len in Hr.
  change (flipToggle Js.NaN) with Js.NaN in Hr, Htg. rewrite Hadv, Hc in Hr.
  split; [exact Hr | exact Htg].
Qed.

Lemma estimateCurrentIndex_NaN_toggle_witness :
  returned 6 (Some "INR12627") (stations demoRoute)
    {[ "rail_idx:INR12627" := "1"; "rail_toggle:INR12627" := "on" ]}
  = Js.Int (clampIndex 1 (Z.of_nat (length (stations demoRoute)))) /\
  storedToggle (Some "INR12627")
    (storageAfter 7 (Some "INR12627") (stations demoRoute)
       {[ "rail_idx:INR12627" := "1"; "rail_toggle:INR12627" := "on" ]}) = Js.NaN.
Proof.
  apply (estimateCurrentIndex_NaN_toggle (Some "INR12627") (stations demoRoute)
           {[ "rail_idx:INR12627" := "1"; "rail_toggle:INR12627" := "on" ]} 1 6).
  - simpl. lia.
  - reflexivity.
  - reflexivity.
Defined.

(** X5. For a route with fewer than two stations the clamp has an empty
    range: whatever integer is persisted, every poll returns [N - 2], a
    negative index at which the route has no station. *)
Theorem estimateCurrentIndex_short_route {C : Type} (currentTrain : option string)
  (sts : list (Station C)) (ls : gmap string string) (n : Z) (k : nat) :
  (length sts < 2)%nat ->
  storedIndex currentTrain ls = Js.Int n ->
  returned k currentTrain sts ls = Js.Int (Z.of_nat (length sts) - 2) /\
  stationAt sts (returned k currentTrain sts ls) = None.
Proof.
  intros Hlen Hn.
  set (len := Z.of_nat (length sts)).
  assert (Hadv : forall m t, advanceFrom m t len = len - 2).
  { intros m t. unfold advanceFrom.
    replace (Z.min (Z.max m 0) (len - 2)) with (len - 2) by (unfold len; lia).
    rewrite Z.ltb_irrefl, andb_false_r. reflexivity. }
  assert (Inv : forall j, exists m,
             storedIndex currentTrain (storageAfter j currentTrain sts ls) = Js.Int m).
  { induction j as [|j (m & Hm)]; [exists n; assumption|].
    destruct (poll_from currentTrain sts _ _ Hm) as (_ & Hs & _).
    cbn [storageAfter]. eauto. }
  destruct (Inv k) as (m & Hm).
  destruct (poll_from currentTrain sts _ _ Hm) as (Hr & _).
  fold len in Hr. rewrite Hadv in Hr. unfold returned. rewrite Hr.
  split; [reflexivity|]. unfold stationAt.
  destruct (Z.ltb_spec (len - 2) 0); [reflexivity | unfold len in *; lia].
Qed.

Lemma estimateCurrentIndex_short_route_witness :
  returned 2 (Some "INR12627") (firstn 1 (stations demoRoute)) ∅
  = Js.Int (Z.of_nat (length (firstn 1 (stations demoRoute))) - 2) /\
  stationAt (firstn 1 (stations demoRoute))
    (returned 2 (Some "INR12627") (firstn 1 (stations demoRoute)) ∅) = None.
Proof.
  apply (estimateCurrentIndex_short_route (Some "INR12627")
           (firstn 1 (stations demoRoute)) ∅ 0 2).
  - simpl. lia.
  - reflexivity.
Defined.

Lemma idxKey_inj (a b : option string) :
  idxKey a = idxKey b -> trainOrDemo a = trainOrDemo b.
Proof. unfold idxKey. simpl. intros H. injection H as H. exact H. Qed.

Lemma toggleKey_inj (a b : option string) :
  toggleKey a = toggleKey b -> trainOrDemo a = trainOrDemo b.
Proof. unfold toggleKey. simpl. intros H. injection H as H. exact H. Qed.

Lemma idxKey_toggleKey (a b : option string) : idxKey a <> toggleKey b.
Proof. unfold idxKey, toggleKey. simpl. discriminate. Qed.

Lemma poll_frame {C : Type} (currentTrain : option string)
  (sts : list (Station C)) (ls : gmap string string) (key : string) :
  key <> idxKey currentTrain -> key <> toggleKey currentTrain ->
  snd (estimateCurrentIndex currentTrain sts ls) !! key = ls !! key.
Proof.
  intros H1 H2. unfold estimateCurrentIndex. cbn [snd].
  rewrite !lookup_insert_ne by congruence. reflexivity.
Qed.

(** X6. A poll writes the two entries of its own train and nothing else:
    every other key of [localStorage] keeps its value over any number of
    polls, so the cursor and toggle of another train ([currentTrain ||
    'demo'] different) are read back unchanged. *)
Theorem estimateCurrentIndex_frame {C : Type} (currentTrain : option string)
  (sts : list (Station C)) (ls : gmap string string) (k : nat) :
  (forall key : string,
     key <> idxKey currentTrain -> key <> toggleKey currentTrain ->
     storageAfter k currentTrain sts ls !! key = ls !! key) /\
  (forall other : option string,
     trainOrDemo other <> trainOrDemo currentTrain ->
     storedIndex other (storageAfter k currentTrain sts ls) = storedIndex other ls /\
     storedToggle other (storageAfter k currentTrain sts ls) = storedToggle other ls).
Proof.
  assert (F : forall key : string,
             key <> idxKey currentTrain -> key <> toggleKey currentTrain ->
             storageAfter k currentTrain sts ls !! key = ls !! key).
  { intros key H1 H2. induction k as [|k IH]; [reflexivity|].
    cbn [storageAfter]. rewrite poll_frame by assumption. exact IH. }
  split; [exact F|].
  intros other Hne. unfold storedIndex, storedToggle.
  assert (N1 : idxKey other <> idxKey currentTrain)
    by (intros E; apply Hne, idxKey_inj, E).
  assert (N2 : idxKey other <> toggleKey currentTrain)
    by apply idxKey_toggleKey.
  assert (N3 : toggleKey other <> idxKey currentTrain)
    by (intros E; symmetry in E; exact (idxKey_toggleKey _ _ E)).
  assert (N4 : toggleKey other <> toggleKey currentTrain)
    by (intros E; apply Hne, toggleKey_inj, E).
  rewrite (F _ N1 N2), (F _ N3 N4). split; reflexivity.
Qed.

(** ** [renderRoute] *)

Lemma renderRoute_eq (t : string) (sts : list (Station R))
  (ls : gmap string string) (pnow dnow : R) :
  renderRoute t sts ls pnow dnow =
    let idx := fst (estimateCurrentIndex (Some t) sts ls) in
    let ls' := snd (estimateCurrentIndex (Some t) sts ls) in
    match stationAt sts idx with
    | None => (Throw TypeError, ls')
    | Some cur =>
        let nxt := match stationAt sts (Js.add idx (Js.Int 1)) with
                   | Some s => s
                   | None => cur
                   end in
        (Ok (mkRendered (Some t) idx cur nxt
               (animateMarker (lat cur, lng cur) (lat nxt, lng nxt) animDuration pnow)
               (updateEta sts (toInteger idx) dnow)), ls')
    end.
Proof.
  unfold renderRoute. destruct (estimateCurrentIndex (Some t) sts ls). reflexivity.
Qed.

(** X7. For a route with at least two stations and a persisted index that
    reads as an integer, [renderRoute] does not throw: the current station
    is the one at the returned index [i <= N - 2], the next station is the
    one at [i + 1] (the fallback to the current station is never taken),
    the marker is animated from the one to the other over 4000 ms, and the
    ETA is computed from index [i]. *)
Theorem renderRoute_segment (t : string) (sts : list (Station R))
  (ls : gmap string string) (n : Z) (pnow dnow : R) :
  (2 <= length sts)%nat ->
  storedIndex (Some t) ls = Js.Int n ->
  exists (i : Z) (cur nxt : Station R),
    0 <= i <= Z.of_nat (length sts) - 2 /\
    fst (estimateCurrentIndex (Some t) sts ls) = Js.Int i /\
    sts !! Z.to_nat i = Some cur /\
    sts !! S (Z.to_nat i) = Some nxt /\
    renderRoute t sts ls pnow dnow
    = (Ok (mkRendered (Some t) (Js.Int i) cur nxt
             (animateMarker (lat cur, lng cur) (lat nxt, lng nxt) 4000 pnow)
             (updateEta sts i dnow)),
       snd (estimateCurrentIndex (Some t) sts ls)).
Proof.
  intros Hlen Hn.
  destruct (poll_from (Some t) sts ls n Hn) as (Hr & _).
  pose proof (advanceFrom_range n (flipToggle (storedToggle (Some t) ls))
                (Z.of_nat (length sts)) ltac:(lia)) as Hi.
  set (i := advanceFrom n (flipToggle (storedToggle (Some t) ls))
              (Z.of_nat (length sts))) in *.
  destruct (lookup_lt_is_Some_2 sts (Z.to_nat i) ltac:(lia)) as [cur Hc].
  destruct (lookup_lt_is_Some_2 sts (S (Z.to_nat i)) ltac:(lia)) as [nxt Hx].
  exists i, cur, nxt. repeat (split; [assumption || lia|]).
  rewrite renderRoute_eq. cbv zeta. rewrite Hr.
  unfold stationAt. cbn [Js.add].
  destruct (Z.ltb_spec i 0); [lia|].
  destruct (Z.ltb_spec (i + 1) 0); [lia|].
  rewrite Hc. replace (Z.to_nat (i + 1)) with (S (Z.to_nat i)) by lia.
  rewrite Hx. reflexivity.
Qed.

Lemma renderRoute_segment_witness :
  exists (i : Z) (cur nxt : Station R),
    0 <= i <= Z.of_nat (length twoStations) - 2 /\
    fst (estimateCurrentIndex (Some "INR12627") twoStations ∅) = Js.Int i /\
    twoStations !! Z.to_nat i = Some cur /\
    twoStations !! S (Z.to_nat i) = Some nxt /\
    renderRoute "INR12627" twoStations ∅ 0 0
    = (Ok (mkRendered (Some "INR12627") (Js.Int i) cur nxt
             (animateMarker (lat cur, lng cur) (lat nxt, lng nxt) 4000 0)
             (updateEta twoStations i 0)),
       snd (estimateCurrentIndex (Some "INR12627") twoStations ∅)).
Proof.
  apply (renderRoute_segment "INR12627" twoStations ∅ 0 0%R 0%R).
  - simpl. lia.
  - reflexivity.
Defined.

(** X8. [renderRoute] throws a [TypeError] when the cursor names no
    station: on a route with a single station (a live route with one
    station passes the emptiness test of the provider), and, for a route
    that has a station, on a persisted index that does not read as a
    number.  The poll has written [localStorage] by then: the index is
    left at [-1] in the first case and at [NaN] in the second, next to a
    toggle. *)
Theorem renderRoute_throws (t : string) (sts : list (Station R))
  (ls : gmap string string) (pnow dnow : R) :
  (length sts = 1%nat /\ (exists n, storedIndex (Some t) ls = Js.Int n)) \/
  ((1 <= length sts)%nat /\ storedIndex (Some t) ls = Js.NaN) ->
  exists ls' : gmap string string,
    renderRoute t sts ls pnow dnow = (Throw TypeError, ls') /\
    ls' !! idxKey (Some t)
    = Some (match storedIndex (Some t) ls with
            | Js.NaN => "NaN"
            | Js.Int _ => "-1"
            end) /\
    is_Some (ls' !! toggleKey (Some t)).
Proof.
  intros H. exists (snd (estimateCurrentIndex (Some t) sts ls)).
  rewrite renderRoute_eq. cbv zeta.
  assert (E : fst (estimateCurrentIndex (Some t) sts ls)
              = match storedIndex (Some t) ls with
                | Js.NaN => Js.NaN
                | Js.Int _ => Js.Int (-1)
                end).
  { destruct H as [[Hlen [n Hn]] | [_ Hnan]].
    - destruct (poll_from (Some t) sts ls n Hn) as (Hr & _). rewrite Hr, Hn.
      f_equal. unfold advanceFrom. rewrite Hlen.
      replace (Z.min (Z.max n 0) (Z.of_nat 1 - 2)) with (-1) by lia.
      rewrite andb_false_r. reflexivity.
    - destruct (poll_from_NaN (Some t) sts ls Hnan) as [-> _].
      rewrite Hnan. reflexivity. }
  assert (S1 : snd (estimateCurrentIndex (Some t) sts ls) !! idxKey (Some t)
               = Some (Js.toString (fst (estimateCurrentIndex (Some t) sts ls)))).
  { unfold estimateCurrentIndex. cbn [fst snd]. apply lookup_insert_eq. }
  assert (S2 : is_Some (snd (estimateCurrentIndex (Some t) sts ls)
                          !! toggleKey (Some t))).
  { unfold estimateCurrentIndex. cbn [fst snd].
    rewrite lookup_insert_ne by apply keys_differ.
    rewrite lookup_insert_eq. eauto. }
  rewrite S1, E. split; [|split; [|exact S2]].
  - destruct (storedIndex (Some t) ls); reflexivity.
  - destruct (storedIndex (Some t) ls); reflexivity.
Qed.

Lemma renderRoute_throws_witness :
  (exists ls' : gmap string string,
     renderRoute "INR12627" (firstn 1 twoStations) ∅ 0 0 = (Throw TypeError, ls') /\
     ls' !! idxKey (Some "INR12627")
     = Some (match storedIndex (Some "INR12627") ∅ with
             | Js.NaN => "NaN"
             | Js.Int _ => "-1"
             end) /\
     is_Some (ls' !! toggleKey (Some "INR12627"))) /\
  (exists ls' : gmap string string,
     renderRoute "INR12627" twoStations {[ "rail_idx:INR12627" := "two" ]} 0 0
     = (Throw TypeError, ls') /\
     ls' !! idxKey (Some "INR12627")
     = Some (match storedIndex (Some "INR12627") {[ "rail_idx:INR12627" := "two" ]} with
             | Js.NaN => "NaN"
             | Js.Int _ => "-1"
             end) /\
     is_Some (ls' !! toggleKey (Some "INR12627"))).
Proof.
  split.
  - apply (renderRoute_throws "INR12627" (firstn 1 twoStations) ∅ 0%R 0%R).
    left. split; [reflexivity | exists 0; reflexivity].
  - apply (renderRoute_throws "INR12627" twoStations
             {[ "rail_idx:INR12627" := "two" ]} 0%R 0%R).
    right. split; [simpl; lia | reflexivity].
Defined.

(** ** The provider, case by case *)

Lemma revString_empty : revString "" = "".
Proof. reflexivity. Qed.





Lemma liveConfigured_url (ui : Controls) :
  liveConfigured ui = true -> nonEmpty (trim (apiUrl_value ui)) = true.
Proof. unfold liveConfigured. intros H. apply andb_true_iff in H. tauto. Qed.

(** X10. With a live provider configured, a payload that [mapApiToRoute]
    accepts with at least one station is what the provider resolves to,
    and no toast is shown. *)
Theorem getRouteProvider_live_route (ui : Controls) (t : string) (j : JsVal)
  (r : Route) (shown : list string) :
  liveConfigured ui = true ->
  mapApiToRoute j = Ok r ->
  stations r <> [] ->
  getRouteProvider ui t (answering j) shown = (Ok (ARoute r), shown).
Proof.
  intros Hc Hm Hs. rewrite getRouteProvider_cases. unfold liveRoute. rewrite Hc.
  rewrite tryFetchLiveRoute_answering by apply liveConfigured_url, Hc.
  rewrite Hm. unfold isEmptyRoute. destruct (stations r); [congruence|reflexivity].
Qed.

Lemma getRouteProvider_live_route_witness :
  getRouteProvider (mkControls true "https://api.example/{trainNo}" "") "INR12627"
    (answering onePayload) []
  = (Ok (ARoute oneRoute), []).
Proof.
  apply (getRouteProvider_live_route
           (mkControls true "https://api.example/{trainNo}" "") "INR12627"
           onePayload oneRoute []).
  - reflexivity.
  - reflexivity.
  - discriminate.
Defined.

(** X11. With a live provider configured, each way the live call can go
    wrong ends the same way: when [fetch] rejects, the response is not ok,
    its body does not parse, or the payload has no [stations] array, the
    provider resolves to the static fallback and shows exactly one toast,
    'Live API failed, using demo route.' *)
Theorem getRouteProvider_live_failure (ui : Controls) (t : string) (net : Net)
  (shown : list string) :
  liveConfigured ui = true ->
  (forall u h,
     match net u h with
     | Throw _ => True
     | Ok res =>
         ok res = false \/ (exists e, json res = Throw e) \/
         (exists j, json res = Ok j /\ isArray (prop j "stations") = false)
     end) ->
  getRouteProvider ui t net shown
  = (Ok (mockOrDefault t), (shown ++ ["Live API failed, using demo route."])%list).
Proof.
  intros Hc Hnet. rewrite getRouteProvider_cases. unfold liveRoute. rewrite Hc.
  assert (E : exists e, tryFetchLiveRoute net t (trim (apiUrl_value ui))
                          (trim (apiKey_value ui)) = Throw e).
  { unfold tryFetchLiveRoute. rewrite (liveConfigured_url ui Hc). cbn [negb].
    match goal with |- context [net ?u ?h] =>
      specialize (Hnet u h); destruct (net u h) as [res|e] end;
      [|simpl; eauto].
    cbn [bind]. destruct Hnet as [H | [[e H] | (j & H & Hj)]].
    - rewrite H. simpl. eauto.
    - destruct (ok res); simpl; [rewrite H|]; simpl; eauto.
    - destruct (ok res); simpl; [rewrite H|]; simpl; eauto.
      rewrite mapApiToRoute_guard by auto. eauto. }
  destruct E as [e ->]. reflexivity.
Qed.

Lemma getRouteProvider_live_failure_witness :
  getRouteProvider (mkControls true "https://api.example/{trainNo}" "") "INR12627"
    (answering (JObj {[ "trainNo" := JStr "INR12627" ]})) []
  = (Ok (mockOrDefault "INR12627"), ([] ++ ["Live API failed, using demo route."])%list).
Proof.
  apply (getRouteProvider_live_failure
           (mkControls true "https://api.example/{trainNo}" "") "INR12627"
           (answering (JObj {[ "trainNo" := JStr "INR12627" ]})) []).
  - reflexivity.
  - intros u h. simpl. right. right.
    exists (JObj {[ "trainNo" := JStr "INR12627" ]}). split; reflexivity.
Defined.

(** X12. What the fallback expression evaluates to, for every identifier:
    the demo route, except on the twelve names of [Object.prototype],
    where the lookup in the object literal finds the inherited member. *)
Theorem mockOrDefault_all (t : string) :
  mockOrDefault t =
    if existsb (String.eqb t) objectPrototypeNames
    then APrototypeMember t else ARoute demoRoute.
Proof.
  unfold mockOrDefault, mockLookup.
  destruct (MOCK_ROUTES !! t) as [r|] eqn:E.
  - unfold MOCK_ROUTES in E. apply lookup_singleton_Some in E as [<- <-].
    reflexivity.
  - destruct (existsb (String.eqb t) objectPrototypeNames); reflexivity.
Qed.

(** ** The request of [tryFetchLiveRoute] *)

Lemma encode_unreserved (s : string) :
  allChars isUnreserved s = true -> encodeURIComponent s = s.
Proof.
  induction s as [|c s IH]; [reflexivity|]. cbn [allChars encodeURIComponent].
  intros H. apply andb_true_iff in H as [Hc Hs]. rewrite Hc, (IH Hs). reflexivity.
Qed.

Lemma substring_after (a b : string) :
  String.substring (String.length a) (String.length (a +:+ b) - String.length a) (a +:+ b)
  = b.
Proof.
  induction a as [|c a IH].
  - simpl. rewrite Nat.sub_0_r.
    induction b as [|d b IHb]; [reflexivity|]. simpl. f_equal.
    destruct b; [reflexivity|]. exact IHb.
  - simpl. exact IH.
Qed.

Lemma prefix_append (a b : string) : String.prefix a (a +:+ b) = true.
Proof.
  induction a as [|c a IH]; [destruct b; reflexivity|].
  simpl. destruct (Ascii.ascii_dec c c); [exact IH | congruence].
Qed.

Lemma prefix_head (p0 c : ascii) (prest s : string) :
  c <> p0 -> String.prefix (String p0 prest) (String c s) = false.
Proof. intros H. simpl. destruct (Ascii.ascii_dec p0 c); [congruence|reflexivity]. Qed.

Lemma occurs_false_cons (c x : ascii) (s : string) :
  occurs c (String x s) = false -> x <> c /\ occurs c s = false.
Proof.
  cbn [occurs]. intros H. apply orb_false_iff in H as [H1 H2].
  split; [|exact H2]. apply Ascii.eqb_neq, H1.
Qed.

Lemma replaceFirst_placeholder (p0 : ascii) (prest rep pre post : string) :
  occurs p0 pre = false ->
  replaceFirst (String p0 prest) rep (pre +:+ String p0 prest +:+ post)
  = pre +:+ rep +:+ post.
Proof.
  intros H. induction pre as [|c pre IH].
  - change ("" +:+ String p0 prest +:+ post) with (String p0 prest +:+ post).
    destruct (String p0 prest +:+ post) eqn:E; [discriminate|].
    cbn [replaceFirst]. rewrite <- E. rewrite prefix_append, substring_after.
    reflexivity.
  - apply occurs_false_cons in H as [Hc Ho].
    change (String c pre +:+ String p0 prest +:+ post)
      with (String c (pre +:+ String p0 prest +:+ post)).
    cbn [replaceFirst]. rewrite prefix_head by assumption.
    rewrite (IH Ho). reflexivity.
Qed.

Lemma replaceFirst_absent (p0 : ascii) (prest rep s : string) :
  occurs p0 s = false -> replaceFirst (String p0 prest) rep s = s.
Proof.
  induction s as [|c s IH]; intros H; [reflexivity|].
  apply occurs_false_cons in H as [Hc Ho].
  cbn [replaceFirst]. rewrite prefix_head by assumption. rewrite (IH Ho).
  reflexivity.
Qed.

Lemma nonEmpty_template (pre mid post : string) :
  nonEmpty mid = true -> nonEmpty (pre +:+ mid +:+ post) = true.
Proof.
  destruct pre; [|reflexivity]. destruct mid; [discriminate | reflexivity].
Qed.

(** X13. With a template [pre{trainNo}post] whose part before the
    placeholder holds no brace, [tryFetchLiveRoute] makes one request, to
    [pre + encodeURIComponent(trainNo) + post] (a later placeholder stays
    as it is), with an [Authorization] header exactly when the key is not
    empty; a response that is not ok gives 'API error' without its body
    being read, and an ok one is parsed and mapped. *)
Theorem tryFetchLiveRoute_request (net : Net) (t pre post key : string)
  (resp : Response) :
  occurs "{" pre = false ->
  net (pre +:+ encodeURIComponent t +:+ post)
      (if nonEmpty key then {[ "Authorization" := key ]} else ∅) = Ok resp ->
  tryFetchLiveRoute net t (pre +:+ "{trainNo}" +:+ post) key
  = if ok resp then (let! j := json resp in mapApiToRoute j) else Throw ApiError.
Proof.
  intros Hpre Hnet. unfold tryFetchLiveRoute.
  rewrite nonEmpty_template by reflexivity. cbn [negb].
  rewrite (replaceFirst_placeholder "{" "trainNo}" _ pre post Hpre).
  rewrite Hnet. cbn [bind]. destruct (ok resp); reflexivity.
Qed.

Lemma tryFetchLiveRoute_request_witness :
  tryFetchLiveRoute
    (answeringOnly "https://api.example/live?train=INR%2F1&x={trainNo}"
       {[ "Authorization" := "secret" ]} (mkResponse true (Ok onePayload)))
    "INR/1" ("https://api.example/live?train=" +:+ "{trainNo}" +:+ "&x={trainNo}")
    "secret"
  = if ok (mkResponse true (Ok onePayload))
    then (let! j := json (mkResponse true (Ok onePayload)) in mapApiToRoute j)
    else Throw ApiError.
Proof.
  apply (tryFetchLiveRoute_request
           (answeringOnly "https://api.example/live?train=INR%2F1&x={trainNo}"
              {[ "Authorization" := "secret" ]} (mkResponse true (Ok onePayload)))
           "INR/1" "https://api.example/live?train=" "&x={trainNo}" "secret"
           (mkResponse true (Ok onePayload))).
  - reflexivity.
  - reflexivity.
Defined.

(** X14. A template without a brace is requested as it is: the train
    number is not part of the request, whatever it is. *)
Theorem tryFetchLiveRoute_no_placeholder (net : Net) (t apiUrl key : string)
  (resp : Response) :
  nonEmpty apiUrl = true ->
  occurs "{" apiUrl = false ->
  net apiUrl (if nonEmpty key then {[ "Authorization" := key ]} else ∅) = Ok resp ->
  tryFetchLiveRoute net t apiUrl key
  = if ok resp then (let! j := json resp in mapApiToRoute j) else Throw ApiError.
Proof.
  intros Hne Hocc Hnet. unfold tryFetchLiveRoute. rewrite Hne. cbn [negb].
  rewrite (replaceFirst_absent "{" "trainNo}" _ apiUrl Hocc).
  rewrite Hnet. cbn [bind]. destruct (ok resp); reflexivity.
Qed.

Lemma tryFetchLiveRoute_no_placeholder_witness :
  tryFetchLiveRoute
    (answeringOnly "https://api.example/live" ∅ (mkResponse false (Ok JNull)))
    "INR12627" "https://api.example/live" ""
  = if ok (mkResponse false (Ok JNull))
    then (let! j := json (mkResponse false (Ok JNull)) in mapApiToRoute j)
    else Throw ApiError.
Proof.
  apply (tryFetchLiveRoute_no_placeholder
           (answeringOnly "https://api.example/live" ∅ (mkResponse false (Ok JNull)))
           "INR12627" "https://api.example/live" "" (mkResponse false (Ok JNull))).
  - reflexivity.
  - reflexivity.
  - reflexivity.
Defined.

Lemma wellEncoded_unreserved (c : ascii) (r : string) :
  isUnreserved c = true -> wellEncoded (String c r) = wellEncoded r.
Proof.
  destruct c as [[] [] [] [] [] [] [] []]; try discriminate; reflexivity.
Qed.

Lemma hexDigit_isHex (c : ascii) :
  isHexDigit (hexDigit (N_of_ascii c / 16)) = true /\
  isHexDigit (hexDigit (N_of_ascii c mod 16)) = true.
Proof. destruct c as [[] [] [] [] [] [] [] []]; split; reflexivity. Qed.

(** X15. [encodeURIComponent] as the request uses it: its result holds
    only unreserved characters and [%XX] triples with hexadecimal digits
    (so an identifier brings no [/], [?], [&], [#] or brace into the URL),
    and an identifier made of unreserved characters only, such as an
    upper-case alphanumeric train number, is sent as it is. *)
Theorem encodeURIComponent_safe (s : string) :
  wellEncoded (encodeURIComponent s) = true /\
  (allChars isUnreserved s = true -> encodeURIComponent s = s).
Proof.
  split; [|apply encode_unreserved].
  induction s as [|c s IH]; [reflexivity|]. cbn [encodeURIComponent].
  destruct (isUnreserved c) eqn:E.
  - change (String c "" +:+ encodeURIComponent s)
      with (String c (encodeURIComponent s)).
    rewrite wellEncoded_unreserved by exact E. exact IH.
  - destruct (hexDigit_isHex c) as [H1 H2].
    change (wellEncoded
              (String "%" (String (hexDigit (N_of_ascii c / 16))
                 (String (hexDigit (N_of_ascii c mod 16)) (encodeURIComponent s))))
            = true).
    cbn [wellEncoded]. rewrite H1, H2, IH. reflexivity.
Qed.

(** ** More on the payload mapping *)

Lemma mapM_mapStation_nullish (items : list JsVal) :
  hasNullish items = true -> mapM mapStation items = Throw TypeError.
Proof.
  unfold hasNullish. induction items as [|a items IH]; [discriminate|].
  cbn [existsb mapM]. destruct (nullish a) eqn:Ea.
  - intros _. destruct a; try discriminate; reflexivity.
  - cbn [orb]. intros H.
    destruct (proj2 (mapStation_returns a) Ea) as [st ->].
    cbn [bind]. rewrite (IH H). reflexivity.
Qed.

(** X16. A payload that passes the guard of [mapApiToRoute] but has a
    [null] among its stations makes the mapping throw a TypeError (the
    property read on [null]), not the schema error. *)
Theorem mapApiToRoute_null_station (json : JsVal) (items : list JsVal) :
  truthy json = true ->
  truthy (prop json "trainNo") = true ->
  prop json "stations" = JArr items ->
  hasNullish items = true ->
  mapApiToRoute json = Throw TypeError.
Proof.
  intros Hj Hn Hs Hnull.
  rewrite (mapApiToRoute_guarded json items Hj Hn Hs).
  rewrite (mapM_mapStation_nullish items Hnull). reflexivity.
Qed.

Lemma mapApiToRoute_null_station_witness :
  mapApiToRoute
    (JObj {[ "trainNo" := JStr "INR12627";
             "stations" := JArr [ JObj {[ "code" := JStr "CSMT" ]}; JNull ] ]})
  = Throw TypeError.
Proof.
  apply (mapApiToRoute_null_station
           (JObj {[ "trainNo" := JStr "INR12627";
                    "stations" := JArr [ JObj {[ "code" := JStr "CSMT" ]}; JNull ] ]})
           [ JObj {[ "code" := JStr "CSMT" ]}; JNull ]);
    reflexivity.
Defined.

Lemma orElse_textOrEmpty (v : JsVal) : textOrEmpty (orElse v (JStr "")).
Proof.
  unfold textOrEmpty, orElse. destruct (truthy v) eqn:E; [left; exact E | right; reflexivity].
Qed.

(** X17. What a mapped route is made of: [trainNo] and [trainName] are
    truthy, [delayMinutes] is truthy or 0, and [code], [name], [sch] and
    [act] of every station are truthy or the empty string, never
    [undefined] or [null]. *)
Theorem mapApiToRoute_fields (json : JsVal) (r : Route) :
  mapApiToRoute json = Ok r ->
  truthy (trainNo r) = true /\
  truthy (trainName r) = true /\
  (truthy (delayMinutes r) = true \/ delayMinutes r = JNum 0) /\
  Forall (fun st => textOrEmpty (code st) /\ textOrEmpty (name st) /\
                    textOrEmpty (sch st) /\ textOrEmpty (act st))
         (stations r).
Proof.
  intros H.
  destruct (mapApiToRoute_Ok_inv _ _ H) as (Hj & Hn & items & Hs).
  rewrite (mapApiToRoute_guarded json items Hj Hn Hs) in H.
  destruct (mapM mapStation items) as [mapped|e] eqn:Hm; simpl in H; [|discriminate].
  injection H as <-. cbn [trainNo trainName delayMinutes stations].
  split; [exact Hn|]. split; [|split].
  - unfold orElse. destruct (truthy (prop json "trainName")) eqn:E;
      [exact E | reflexivity].
  - unfold orElse. destruct (truthy (prop json "delayMinutes")) eqn:E;
      [left; exact E | right; reflexivity].
  - apply mapM_Ok in Hm. apply Forall_forall. intros st Hin.
    apply list_elem_of_lookup in Hin as [i Hi].
    destruct (Forall2_lookup_r _ _ _ _ _ Hm Hi) as (s & _ & Hmap).
    rewrite (mapStation_Ok _ _ Hmap). cbn [code name sch act].
    repeat split; apply orElse_textOrEmpty.
Qed.

Lemma mapApiToRoute_fields_witness :
  truthy (trainNo oneRoute) = true /\
  truthy (trainName oneRoute) = true /\
  (truthy (delayMinutes oneRoute) = true \/ delayMinutes oneRoute = JNum 0) /\
  Forall (fun st => textOrEmpty (code st) /\ textOrEmpty (name st) /\
                    textOrEmpty (sch st) /\ textOrEmpty (act st))
         (stations oneRoute).
Proof.
  apply (mapApiToRoute_fields onePayload oneRoute).
  reflexivity.
Defined.

(** X18. Only a JSON object can be mapped: a payload that is [null], a
    boolean, a number, a string or an array is refused with the schema
    error. *)
Theorem mapApiToRoute_not_object (json : JsVal) :
  (forall props, json <> JObj props) ->
  mapApiToRoute json = Throw SchemaMismatch.
Proof.
  intros H. apply mapApiToRoute_guard.
  destruct json; try (right; left; reflexivity); try (left; reflexivity).
  exfalso. eapply H. reflexivity.
Qed.

Lemma mapApiToRoute_not_object_witness :
  mapApiToRoute (JArr [ JObj {[ "trainNo" := JStr "INR12627" ]} ])
  = Throw SchemaMismatch.
Proof.
  apply (mapApiToRoute_not_object (JArr [ JObj {[ "trainNo" := JStr "INR12627" ]} ])).
  intros props. discriminate.
Defined.

(** ** More on distances *)

Local Open Scope R_scope.

(** X19. The argument [h] that [haversine] passes to [Math.sqrt], and its
    square root to [Math.asin], lies in [[0, 1]] for all coordinates, also
    outside the geographic ranges: neither call leaves its domain. *)
Theorem haversine_domain (a b : LatLng) :
  0 <= sin (toRad (fst b - fst a) / 2) ^ 2 +
       cos (toRad (fst a)) * cos (toRad (fst b)) *
       sin (toRad (snd b - snd a) / 2) ^ 2 <= 1 /\
  0 <= sqrt (sin (toRad (fst b - fst a) / 2) ^ 2 +
             cos (toRad (fst a)) * cos (toRad (fst b)) *
             sin (toRad (snd b - snd a) / 2) ^ 2) <= 1.
Proof.
  pose proof (haversine_argument a b) as H. cbv zeta in H.
  split; [exact H|]. split; [apply sqrt_pos|].
  rewrite <- sqrt_1. apply sqrt_le_1; lra.
Qed.

(** X20. A distance is never negative and never more than half the
    circumference of the sphere, [6371 * PI] km. *)
Theorem haversine_bounds (a b : LatLng) :
  0 <= haversine a b <= 6371 * PI.
Proof.
  split; [apply haversine_nonneg|].
  unfold haversine. cbv zeta.
  match goal with |- 2 * 6371 * asin ?x <= _ =>
    pose proof (asin_bound x) as [_ Hb] end.
  lra.
Qed.

Lemma asin_abs_sin (y : R) :
  - (PI / 2) <= y <= PI / 2 -> asin (Rabs (sin y)) = Rabs y.
Proof.
  intros Hy. pose proof PI_RGT_0 as Hpi.
  destruct (Rle_lt_dec 0 y) as [H0 | H0].
  - rewrite (Rabs_right y) by lra.
    rewrite Rabs_right by (apply Rle_ge, sin_ge_0; lra).
    apply asin_sin. lra.
  - rewrite (Rabs_left y) by lra.
    assert (Hs : sin y < 0) by (apply sin_lt_0_var; lra).
    rewrite Rabs_left by exact Hs. rewrite <- sin_neg. apply asin_sin. lra.
Qed.

(** X21. Along a meridian (equal longitudes, latitudes at most 180 degrees
    apart) the distance is the radius times the difference of latitude in
    radians: [6371 * PI / 180] km, about 111.19 km, per degree. *)
Theorem haversine_meridian (lat1 lat2 lon : R) :
  Rabs (lat2 - lat1) <= 180 ->
  haversine (lat1, lon) (lat2, lon) = 6371 * (PI / 180) * Rabs (lat2 - lat1).
Proof.
  intros H. pose proof PI_RGT_0 as Hpi.
  unfold haversine. cbn [fst snd]. cbv zeta.
  replace (lon - lon) with 0 by lra.
  replace (toRad 0 / 2) with 0 by (unfold toRad; lra).
  rewrite sin_0.
  set (y := toRad (lat2 - lat1) / 2).
  replace (sin y ^ 2 + cos (toRad lat1) * cos (toRad lat2) * 0 ^ 2)
    with (sin y)² by (unfold Rsqr; ring).
  rewrite sqrt_Rsqr_abs.
  assert (Hy : Rabs y = PI / 360 * Rabs (lat2 - lat1)).
  { unfold y, toRad.
    replace ((lat2 - lat1) * PI / 180 / 2) with (PI / 360 * (lat2 - lat1)) by lra.
    rewrite Rabs_mult. rewrite (Rabs_right (PI / 360)) by lra. reflexivity. }
  rewrite asin_abs_sin.
  - rewrite Hy. lra.
  - assert (Rabs y <= PI / 2).
    { rewrite Hy. apply Rle_trans with (PI / 360 * 180); [|lra].
      apply Rmult_le_compat_l; lra. }
    unfold Rabs in H0. destruct (Rcase_abs y); lra.
Qed.

Lemma haversine_meridian_witness :
  haversine (19, 72) (18, 72) = 6371 * (PI / 180) * Rabs (18 - 19).
Proof.
  apply (haversine_meridian 19 18 72).
  rewrite Rabs_left; lra.
Defined.

Lemma sin_half_sqr_period (x : R) : sin ((x + 2 * PI) / 2) ^ 2 = sin (x / 2) ^ 2.
Proof.
  replace ((x + 2 * PI) / 2) with (x / 2 + PI) by lra.
  rewrite neg_sin. ring.
Qed.

Lemma cos_turn (x : R) : cos (x + 2 * PI) = cos x.
Proof. rewrite cos_plus, cos_2PI, sin_2PI. ring. Qed.

Lemma toRad_360 (x : R) : toRad (x + 360) = toRad x + 2 * PI.
Proof. unfold toRad. lra. Qed.

(** X22. [haversine] sees longitudes only through their difference, and is
    unchanged when a whole turn is added to a coordinate: shifting both
    longitudes by the same amount, or adding 360 degrees to the latitude
    or to the longitude of a point, gives the same distance. *)
Theorem haversine_invariance (a b : LatLng) (s : R) :
  haversine (fst a, snd a + s) (fst b, snd b + s) = haversine a b /\
  haversine a (fst b, snd b + 360) = haversine a b /\
  haversine a (fst b + 360, snd b) = haversine a b.
Proof.
  unfold haversine. cbn [fst snd]. cbv zeta. split; [|split].
  - replace (snd b + s - (snd a + s)) with (snd b - snd a) by lra. reflexivity.
  - replace (snd b + 360 - snd a) with (snd b - snd a + 360) by lra.
    rewrite toRad_360, sin_half_sqr_period. reflexivity.
  - replace (fst b + 360 - fst a) with (fst b - fst a + 360) by lra.
    rewrite !toRad_360, sin_half_sqr_period, cos_turn. reflexivity.
Qed.

Lemma pathDistanceKm_app (l1 l2 : list LatLng) (p : LatLng) :
  Spec.pathDistanceKm (l1 ++ p :: l2)
  = Spec.pathDistanceKm (l1 ++ [p]) + Spec.pathDistanceKm (p :: l2).
Proof.
  induction l1 as [|a l1 IH].
  - cbn [app]. change (Spec.pathDistanceKm [p]) with 0. lra.
  - destruct l1 as [|b l1].
    + cbn [app]. change (Spec.pathDistanceKm [a; p]) with (haversine a p + 0).
      change (Spec.pathDistanceKm (a :: p :: l2))
        with (haversine a p + Spec.pathDistanceKm (p :: l2)). lra.
    + change (Spec.pathDistanceKm ((a :: b :: l1) ++ p :: l2))
        with (haversine a b + Spec.pathDistanceKm ((b :: l1) ++ p :: l2)).
      change (Spec.pathDistanceKm ((a :: b :: l1) ++ [p]))
        with (haversine a b + Spec.pathDistanceKm ((b :: l1) ++ [p])).
      rewrite IH. lra.
Qed.

(** X23. Path distances add up at a shared point: the distance along
    [l1 ++ p :: l2] is the distance along [l1 ++ [p]] plus the distance
    along [p :: l2]. *)
Theorem polyDistanceKm_split (l1 l2 : list LatLng) (p : LatLng) :
  polyDistanceKm (l1 ++ p :: l2)
  = polyDistanceKm (l1 ++ [p]) + polyDistanceKm (p :: l2).
Proof. rewrite !polyDistanceKm_pathDistanceKm. apply pathDistanceKm_app. Qed.

(** X24. The path distance does not depend on the direction of travel:
    the reversed list of points has the same distance. *)
Theorem polyDistanceKm_rev (points : list LatLng) :
  polyDistanceKm (rev points) = polyDistanceKm points.
Proof.
  rewrite !polyDistanceKm_pathDistanceKm.
  induction points as [|a [|b l] IH]; [reflexivity | reflexivity |].
  change (rev (a :: b :: l)) with ((rev l ++ [b]) ++ [a])%list.
  rewrite <- app_assoc. cbn [app].
  rewrite pathDistanceKm_app.
  change (rev l ++ [b])%list with (rev (b :: l)). rewrite IH.
  change (Spec.pathDistanceKm [b; a]) with (haversine b a + 0).
  change (Spec.pathDistanceKm (a :: b :: l))
    with (haversine a b + Spec.pathDistanceKm (b :: l)).
  rewrite (haversine_sym b a). lra.
Qed.

(** ** More on the ETA *)

Lemma pathDistanceKm_short (l : list LatLng) :
  (length l <= 1)%nat -> Spec.pathDistanceKm l = 0.
Proof. destruct l as [|a [|b l]]; simpl; intros H; try reflexivity. lia. Qed.

Lemma updateEta_remaining (sts : list (Station R)) (idx : Z) (now : R) :
  remainingKm (updateEta sts idx now)
  = Spec.pathDistanceKm (slice (map (fun s => (lat s, lng s)) sts) idx) /\
  etaMs (updateEta sts idx now)
  = now + remainingKm (updateEta sts idx now) / 70 * 3600 * 1000.
Proof.
  split; [|reflexivity].
  unfold updateEta, remainingKm. apply polyDistanceKm_pathDistanceKm.
Qed.

(** X25. Whatever the index, [updateEta] reports a distance that is not
    negative and an ETA that is not before the time of the call; from the
    last station on (index [N - 1] or more) the distance is 0 and the ETA
    is the time of the call. *)
Theorem updateEta_bounds (sts : list (Station R)) (idx : Z) (now : R) :
  0 <= remainingKm (updateEta sts idx now) /\
  now <= etaMs (updateEta sts idx now) /\
  ((Z.of_nat (length sts) - 1 <= idx)%Z ->
   remainingKm (updateEta sts idx now) = 0 /\ etaMs (updateEta sts idx now) = now).
Proof.
  destruct (updateEta_remaining sts idx now) as [Hr He].
  assert (H0 : 0 <= remainingKm (updateEta sts idx now))
    by (rewrite Hr; apply pathDistanceKm_nonneg).
  split; [exact H0|]. split; [rewrite He; lra|].
  intros Hidx.
  assert (Z0 : remainingKm (updateEta sts idx now) = 0).
  { rewrite Hr. apply pathDistanceKm_short. unfold slice.
    rewrite length_skipn, length_map.
    destruct (Z.ltb_spec idx 0); lia. }
  split; [exact Z0|]. rewrite He, Z0. lra.
Qed.

(** X26. As the cursor moves on, with the same clock, neither the
    remaining distance nor the ETA grows: for indices [0 <= i <= j],
    [updateEta] at [j] reports at most what it reports at [i]. *)
Theorem updateEta_antitone (sts : list (Station R)) (i j : Z) (now : R) :
  (0 <= i <= j)%Z ->
  remainingKm (updateEta sts j now) <= remainingKm (updateEta sts i now) /\
  etaMs (updateEta sts j now) <= etaMs (updateEta sts i now).
Proof.
  intros Hij.
  destruct (updateEta_remaining sts i now) as [Hri Hei].
  destruct (updateEta_remaining sts j now) as [Hrj Hej].
  assert (H : remainingKm (updateEta sts j now) <= remainingKm (updateEta sts i now)).
  { rewrite Hri, Hrj.
    rewrite <- (Z2Nat.id i), <- (Z2Nat.id j) by lia. rewrite !slice_of_nat.
    replace (Z.to_nat j) with ((Z.to_nat j - Z.to_nat i) + Z.to_nat i)%nat by lia.
    rewrite <- skipn_skipn. apply pathDistanceKm_skipn. }
  split; [exact H|]. rewrite Hei, Hej. lra.
Qed.

Lemma updateEta_antitone_witness :
  remainingKm (updateEta twoStations 1 1000) <= remainingKm (updateEta twoStations 0 1000) /\
  etaMs (updateEta twoStations 1 1000) <= etaMs (updateEta twoStations 0 1000).
Proof.
  apply (updateEta_antitone twoStations 0 1 1000).
  lia.
Defined.


(** ** More on the animation *)



(** X29. From the start on, the marker stays between the two stations:
    for [d > 0] and [now >= start] each coordinate of the position lies
    between that coordinate of [from] and of [to]. *)
Theorem step_between (from to : LatLng) (start d now : R) :
  0 < d ->
  start <= now ->
  Rmin (fst from) (fst to) <= fst (fst (step (animateMarker from to d start) now))
    <= Rmax (fst from) (fst to) /\
  Rmin (snd from) (snd to) <= snd (fst (step (animateMarker from to d start) now))
    <= Rmax (snd from) (snd to).
Proof.
  intros Hd Hs. unfold step, animateMarker.
  cbn [fst snd animFrom animTo animStartTs animDurationOf].
  set (p := Rmin ((now - start) / d) 1).
  assert (Hp : 0 <= p <= 1).
  { unfold p. split; [|apply Rmin_r].
    apply Rmin_glb; [|lra].
    apply Rmult_le_pos; [lra|]. left. apply Rinv_0_lt_compat, Hd. }
  clearbody p.
  assert (B : forall f t : R, Rmin f t <= f + (t - f) * p <= Rmax f t).
  { intros f t. unfold Rmin, Rmax. destruct (Rle_dec f t); split; nra. }
  split; apply B.
Qed.

Lemma step_between_witness :
  Rmin (fst (19, 72)) (fst (18, 73))
    <= fst (fst (step (animateMarker (19, 72) (18, 73) 4000 100) 2100))
    <= Rmax (fst (19, 72)) (fst (18, 73)) /\
  Rmin (snd (19, 72)) (snd (18, 73))
    <= snd (fst (step (animateMarker (19, 72) (18, 73) 4000 100) 2100))
    <= Rmax (snd (19, 72)) (snd (18, 73)).
Proof.
  apply (step_between (19, 72) (18, 73) 100 4000 2100); lra.
Defined.

Local Close Scope R_scope.

(** ** The two callers of [getRouteProvider] *)

Lemma mockOrDefault_demo (t : string) :
  hasLower t = false -> mockOrDefault t = ARoute demoRoute.
Proof.
  intros H. unfold mockOrDefault, mockLookup.
  rewrite (not_a_prototype_name t H).
  destruct (MOCK_ROUTES !! t) as [r|] eqn:E; [|reflexivity].
  unfold MOCK_ROUTES in E. apply lookup_singleton_Some in E as [_ <-].
  reflexivity.
Qed.

Lemma asciiUpper_empty (s : string) : asciiUpper s = "" <-> s = "".
Proof. destruct s; simpl; split; intros H; try reflexivity; discriminate. Qed.

Section Callers.

(** [String.prototype.toUpperCase] of the host, and the two facts about it
    that are used: its result holds no letter a to z, and only the empty
    string gives the empty string. *)
Variable toUpperCase : string -> string.
Hypothesis toUpperCase_no_lower : forall s, hasLower (toUpperCase s) = false.
Hypothesis toUpperCase_empty : forall s, toUpperCase s = "" <-> s = "".

(** X30. What reaches [getRouteProvider]: a click on Track with an input
    that is empty or only white space shows 'Enter a train number' and
    starts nothing; any other click passes the trimmed, upper-cased input,
    and the [load] handler passes the upper-cased URL parameter or
    [INR12627].  For each identifier so passed the fallback
    [MOCK_ROUTES[trainNo] || MOCK_ROUTES['INR12627']] is the demo route. *)
Theorem callers_identifier (trainInput_value : string) (getUrlTrain : option string) :
  (trim trainInput_value = "" <->
   trackBtn_onclick toUpperCase trainInput_value = inl "Enter a train number") /\
  (forall t, trackBtn_onclick toUpperCase trainInput_value = inr t ->
     t = toUpperCase (trim trainInput_value) /\ t <> "" /\
     mockOrDefault t = ARoute demoRoute) /\
  onLoad_train toUpperCase getUrlTrain <> "" /\
  mockOrDefault (onLoad_train toUpperCase getUrlTrain) = ARoute demoRoute.
Proof.
  unfold trackBtn_onclick, onLoad_train, nonEmpty.
  pose proof (toUpperCase_empty (trim trainInput_value)) as E.
  destruct (String.eqb_spec (toUpperCase (trim trainInput_value)) "") as [H | H];
    cbn [negb].
  - split; [split; [reflexivity | intros _; apply E, H]|].
    split; [discriminate|].
    split; [|apply mockOrDefault_demo, toUpperCase_no_lower].
    rewrite toUpperCase_empty.
    destruct getUrlTrain as [[|c s]|]; discriminate.
  - split; [split; [intros H'; apply E in H'; contradiction | discriminate]|].
    split.
    + intros t Ht. injection Ht as <-.
      split; [reflexivity|]. split; [exact H|].
      apply mockOrDefault_demo, toUpperCase_no_lower.
    + split; [|apply mockOrDefault_demo, toUpperCase_no_lower].
      rewrite toUpperCase_empty.
      destruct getUrlTrain as [[|c s]|]; discriminate.
Qed.

End Callers.

(** With upper case for the letters a to z as [toUpperCase]: a click on
    an input of white space (a space, U+00A0, a space), and a click on
    [" inr12627"] followed by U+00A0. *)
Lemma callers_identifier_witness :
  trackBtn_onclick asciiUpper "   " = inl "Enter a train number" /\
  trackBtn_onclick asciiUpper " inr12627 " = inr "INR12627" /\
  mockOrDefault "INR12627" = ARoute demoRoute /\
  onLoad_train asciiUpper (Some "inr12627") <> "" /\
  mockOrDefault (onLoad_train asciiUpper (Some "inr12627")) = ARoute demoRoute.
Proof.
  destruct (callers_identifier asciiUpper hasLower_asciiUpper asciiUpper_empty
              "   " (Some "inr12627")) as (A1 & _ & A3 & A4).
  destruct (callers_identifier asciiUpper hasLower_asciiUpper asciiUpper_empty
              " inr12627 " None) as (_ & B2 & _).
  destruct (B2 "INR12627" eq_refl) as (_ & _ & B3).
  split; [apply A1; reflexivity|].
  split; [reflexivity|].
  split; [exact B3|].
  split; [exact A3 | exact A4].
Defined.
